(* ===== verification/_CoqProject ===== *)
-Q . S2P
Prelude.v
Float32.v
Config.v
Adc.v
Preprocess.v
Engine.v
Decision.v
Stubs.v
Firmware.v
Invariant.v
Pipeline.v
Counting.v
