(* ===== verification/Prelude.v ===== *)
(** * Footstep detector firmware: a verification development

    The verified program is [src/firmware.cpp], a Raspberry Pi Pico
    firmware that samples a microphone through the ADC, normalises the
    samples, runs a TensorFlow Lite Micro (TFLM) model on them and prints
    ["Footstep detected!"] when the model's output exceeds [0.5f].

    ** Files, in dependency order, and the code each one models

    - [Prelude.v] (this file): C arrays as lists whose out-of-bounds store
      or load is undefined behaviour ([None]); the counted [for] loop
      ([for_loop], [fill_body]) the three loops of the program share; the
      conversion of a [uint16_t] to [int16_t] ([to_int16], with its
      wrap-around); the reflexive-transitive closure [star] of a step
      relation; the hint databases [fw] and [fw_rw].  Its theorems: a
      loop whose right-hand sides are defined completes exactly when the
      array is long enough, and [to_int16] is the identity on [int16_t].
    - [Float32.v], [Module F32]: the C [float] type as IEEE-754 binary32,
      the Standard Library's [SpecFloat] at precision 24 and maximal
      exponent 128, restricted to what the firmware computes: conversion of
      an integer ([of_int]), division ([div]), the strict comparison ([gt])
      and the literals [2048.0f] and [0.5f].  Its lemmas: dividing a float
      of at most 24 significant bits by [2048.0f] is exact, and [x > 0.5f]
      decides [1/2 < value x] on valid finite values.
    - [Config.v], [Module Config]: the constants of lines 10-21.
    - [Adc.v]: the frame source, [read_microphone] (lines 28-34).  The
      Pico SDK's [adc_read()] is the interface [Class AdcDevice] (a state
      each call advances, and the 12-bit range of the results).  The loop's
      state is the buffer, the ADC and the log of the conversions it read.
    - [Preprocess.v]: [preprocess_audio] (lines 36-41) and the copy of its
      loop inlined in [main] (lines 82-84), with [normalize_sample], the
      binary32 expression [raw[i] / 2048.0f].
    - [Engine.v]: the TFLM calls [main] makes, as [Class MicroInterpreter]
      ([model->version()] against [TFLITE_SCHEMA_VERSION], the interpreter
      over the arena, [AllocateTensors], [input(0)], [output(0)],
      [Invoke]) with its one law: [Invoke] keeps the tensors' sizes.  TFLM
      itself is a library and is not modelled.
    - [Decision.v]: the threshold [prob > 0.5f] (line 95) and
      [on_footstep_detected] (lines 23-26).
    - [Stubs.v]: test doubles of the two interfaces (an ADC counting its
      conversions, a model stub with a fixed status and output), used only
      by the witnesses.
    - [Firmware.v]: [main] (lines 43-101).  The state [fw_state] holds the
      phase of [main], the ADC, the [interpreter] pointer, the floats the
      [input] and [output] handles point to, [audio_buffer], and the log of
      every call to the SDK, to TFLM and to [printf], in order.  [step] runs
      one phase: [boot] (lines 44-55), [validate] (lines 56-72),
      [take_handles] (lines 74-75), one iteration [cycle] of [while (1)]
      (lines 77-100, its tail after [Invoke] being [after_invoke]), or one
      turn of the [while (1);] that ends a fatal error.  Undefined behaviour
      moves to the phase [Undefined], from which nothing follows.
      [fw_step] is the same transition as an inductive relation, [run n]
      iterates [step], and [reachable] is [star fw_step] from [init_state].
      The theorems of this file are about startup and single iterations.
    - [Invariant.v]: the invariant [fw_inv] of the reachable states and
      what follows from it: no undefined behaviour, the loop runs for
      ever, [audio_buffer] only holds 12-bit samples, the arena is bound
      once; [run_loop_ind] is the induction over iterations of the loop.
    - [Pipeline.v]: the spec's state machine (Uninitialized, Validating,
      Ready, Running, Halted) over observable calls, [spec_step], whose
      running cycle is "read a frame of 160 12-bit samples, invoke, then
      decide and sleep, or report the failure", and the refinement
      theorems.
    - [Counting.v]: counting functions on logs (footsteps, successful
      inferences, failures, total sleep) and the theorems about them.

    ** What the theorems show

    - Refinement (Pipeline): every firmware step from a reachable state is
      a [spec_step] emitting exactly the calls the firmware logs, so every
      reachable log is a run of the spec's machine.
    - Safety and liveness (Invariant): under the model contract (an input
      tensor of at least 160 floats, an output of at least one) the
      invariant [fw_inv] holds in every reachable state, no reachable state
      is undefined behaviour, and once in the loop the firmware stays in it
      for ever, whatever [Invoke] returns; [audio_buffer] is well typed
      (160 slots of 12-bit samples) and the arena is bound once, with no
      read or [Invoke] before a successful allocation.
    - Startup (Firmware): schema mismatch and allocation failure halt for
      ever after exactly the calls the code makes; success reaches the loop
      with the allocated interpreter's tensor handles.
    - One iteration (Firmware): the exact calls and state of an iteration
      whose [Invoke] succeeds or fails.
    - Counting (Counting): the total sleep is 500 ms plus 10 ms per
      successful inference (a failed one skips [sleep_ms(10)]), at most one
      footstep per successful inference, [k] iterations are [k] complete
      cycles, a model with constant output [p] gives one report per
      iteration exactly when [p > 0.5f], a model that always fails is
      retried for ever with no delay and no report.  The spec's scenario
      (a stub always outputting 0.9 gives 5 reports in 5 cycles, 0.1
      none) is the instance of the constant-model theorem.
    - Components: [read_microphone] fills the frame with the next 160
      conversions, terminates, and completes exactly when [size] fits the
      buffer; [preprocess_audio] completes exactly when [size] fits both
      arrays; normalisation is exact
      for every [int16_t] and lands in [[0, 4095/2048]] for ADC values;
      [main]'s inlined preprocessing loop overflows an input tensor of
      fewer than 160 floats; the decision's behaviour on every
      binary32 value, NaN and infinities included.
    The numbered claims are listed in PROJECT.json.

    ** Bounds and fuel

    No definition needs fuel: every C loop of the program has a bound fixed
    on entry and is a structural recursion on its trip count; [while (1)]
    is the step function, iterated [n] times by [run], and the statements
    about the endless loop hold for every [n].  Integers are [Z] with their
    C width written out where it matters: [int16_t] stores through
    [to_int16], and the exactness of normalisation is proved for the whole
    [int16_t] range.

    ** Not modelled

    [printf], [sleep_ms], [stdio_init_all], [adc_init], [adc_gpio_init] and
    [adc_select_input] are recorded as events of the log with no further
    meaning; the USB stdio stack, the ADC's analog behaviour, the model
    blob [model_tflite] (generated [model_data.h]) and TFLM's operator
    kernels are outside the program and are reached only through the two
    interfaces.  Of [src/firmware.cpp] only the [#include] lines, blank
    lines and comments are not translated. *)

From stdpp Require Import base list.
From Stdlib Require Import ZArith Lia.

Declare Scope fw_scope.
Delimit Scope fw_scope with fw.

(** ** C arrays

    A C array is a list; [a[i] = v] is [store a i v], which is [None] when
    the index is out of bounds (undefined behaviour in C), and [a[i]] read
    as an rvalue is [load a i]. *)

Definition store {A} (a : list A) (i : nat) (v : A) : option (list A) :=
  if decide (i < length a)%nat then Some (<[i := v]> a) else None.

Definition load {A} (a : list A) (i : nat) : option A := a !! i.

Notation "a .[ i := v ]" := (store a i v)
  (at level 1, i at level 200, v at level 200, format "a .[ i  :=  v ]") : fw_scope.

Open Scope fw_scope.

(** [for (int i = lo; i < lo + n; i++) body] over a state [S]: each
    iteration may fail (an out-of-bounds access), which stops the loop. *)
Fixpoint for_loop {S} (body : nat -> S -> option S) (lo n : nat) (s : S) : option S :=
  match n with
  | O => Some s
  | S n' => match body lo s with
            | Some s' => for_loop body (Datatypes.S lo) n' s'
            | None => None
            end
  end.

(** The body of a loop [for (i ...) a[i] = e_i;] where evaluating
    [e_i] reads and advances a state [t] (a device, a source array) and
    may fail. *)
Definition fill_body {A T} (g : nat -> T -> option (A * T)) (i : nat) (st : list A * T)
  : option (list A * T) :=
  let '(a, t) := st in
  match g i t with
  | Some (v, t') => match store a i v with Some a' => Some (a', t') | None => None end
  | None => None
  end.

(** The values [e_lo, ..., e_(lo+n-1)] such a loop computes, in order. *)
Fixpoint fill_values {A T} (g : nat -> T -> option (A * T)) (lo n : nat) (t : T)
  : option (list A * T) :=
  match n with
  | O => Some ([], t)
  | S n' => match g lo t with
            | Some (v, t') => match fill_values g (Datatypes.S lo) n' t' with
                              | Some (vs, t'') => Some (v :: vs, t'')
                              | None => None
                              end
            | None => None
            end
  end.

(** ** Reachability *)

Section Reach.
Context {S : Type} (R : S -> S -> Prop).

Inductive star : S -> S -> Prop :=
| star_refl s : star s s
| star_step s1 s2 s3 : R s1 s2 -> star s2 s3 -> star s1 s3.

Lemma star_trans s1 s2 s3 : star s1 s2 -> star s2 s3 -> star s1 s3.
Proof. induction 1; eauto using star. Qed.

Lemma star_one s1 s2 : R s1 s2 -> star s1 s2.
Proof. eauto using star. Qed.

(** Invariance by rule induction. *)
Lemma star_invariant (P : S -> Prop) :
  (forall s s', P s -> R s s' -> P s') ->
  forall s s', star s s' -> P s -> P s'.
Proof. intros Hstep s s' H. induction H; eauto. Qed.
End Reach.

(** ** Generic lemmas *)

Lemma store_Some_iff {A} (a : list A) i v a' :
  store a i v = Some a' <-> (i < length a)%nat /\ a' = <[i := v]> a.
Proof.
  unfold store. destruct (decide (i < length a)%nat) as [Hi|Hi]; split.
  - by intros [= <-].
  - by intros [_ ->].
  - done.
  - by intros [? _].
Qed.

Lemma store_length {A} (a : list A) i v a' :
  store a i v = Some a' -> length a' = length a.
Proof. intros [_ ->]%store_Some_iff. apply length_insert. Qed.

Lemma store_in_bounds {A} (a : list A) i v :
  (i < length a)%nat -> store a i v = Some (<[i := v]> a).
Proof. intros H. unfold store. by rewrite decide_True. Qed.

Lemma store_out_of_bounds {A} (a : list A) i v :
  (length a <= i)%nat -> store a i v = None.
Proof. intros H. unfold store. rewrite decide_False; [done | lia]. Qed.

(** A fill loop writes exactly the slots [lo .. lo+n-1], with the values
    [fill_values] computes, and leaves the rest of the array alone. *)
Lemma for_loop_fill {A T} (g : nat -> T -> option (A * T)) lo n (a : list A) t :
  (lo + n <= length a)%nat ->
  for_loop (fill_body g) lo n (a, t) =
  match fill_values g lo n t with
  | Some (vs, t') => Some (take lo a ++ vs ++ drop (lo + n) a, t')
  | None => None
  end.
Proof.
  revert lo a t. induction n as [|n IH]; intros lo a t Hlen; simpl.
  - by rewrite Nat.add_0_r, take_drop.
  - destruct (g lo t) as [[v t']|]; [|done].
    rewrite store_in_bounds by lia. rewrite IH by (rewrite length_insert; lia).
    destruct (fill_values g (Datatypes.S lo) n t') as [[vs t'']|]; [|done].
    do 2 f_equal. rewrite insert_take_drop by lia.
    replace (take lo a ++ v :: drop (Datatypes.S lo) a)
      with ((take lo a ++ [v]) ++ drop (Datatypes.S lo) a) by (by rewrite <- app_assoc).
    assert (HL : length (take lo a ++ [v]) = Datatypes.S lo)
      by (rewrite length_app, length_take; simpl; lia).
    rewrite take_app_length' by (by rewrite HL).
    rewrite drop_app_ge by lia. rewrite HL, drop_drop, <- app_assoc.
    simpl. do 4 f_equal. lia.
Qed.

(** A fill loop whose bound passes the end of the array stores out of
    bounds, whatever the values. *)
Lemma for_loop_fill_overflow {A T} (g : nat -> T -> option (A * T)) lo n (a : list A) t :
  (forall i t, (i < lo + n)%nat -> is_Some (g i t)) ->
  (lo <= length a < lo + n)%nat ->
  for_loop (fill_body g) lo n (a, t) = None.
Proof.
  revert lo a t. induction n as [|n IH]; intros lo a t Hg Hlen; simpl; [lia|].
  destruct (Hg lo t) as [[v t'] ->]; [lia|].
  destruct (decide (lo = length a)) as [->|Hne].
  - by rewrite store_out_of_bounds.
  - rewrite store_in_bounds by lia. apply IH; [intros i u Hi; apply Hg; lia|].
    rewrite length_insert. lia.
Qed.

(** Loop invariant rule: if every iteration preserves [P] and succeeds
    from a state satisfying [P], the loop succeeds and ends in [P]. *)
Lemma for_loop_invariant {S} (body : nat -> S -> option S) (P : nat -> S -> Prop) lo n s :
  P lo s ->
  (forall i s, (lo <= i < lo + n)%nat -> P i s -> exists s', body i s = Some s' /\ P (Datatypes.S i) s') ->
  exists s', for_loop body lo n s = Some s' /\ P (lo + n)%nat s'.
Proof.
  revert lo s. induction n as [|n IH]; intros lo s H0 Hbody; simpl.
  - rewrite Nat.add_0_r. eauto.
  - destruct (Hbody lo s) as (s' & -> & Hs'); [lia | done |].
    destruct (IH (Datatypes.S lo) s') as (s'' & -> & Hs''); [done | |].
    + intros i t Hi Ht. apply Hbody; [lia | done].
    + exists s''. split; [done|]. by replace (lo + Datatypes.S n)%nat with (Datatypes.S lo + n)%nat by lia.
Qed.

(** A fill loop that completes stayed in bounds and evaluated every
    right-hand side: the converse of [for_loop_fill]. *)
Lemma for_loop_fill_Some {A T} (g : nat -> T -> option (A * T)) lo n (a : list A) t r :
  for_loop (fill_body g) lo n (a, t) = Some r ->
  ((lo + n <= length a)%nat \/ n = 0%nat) /\ is_Some (fill_values g lo n t).
Proof.
  revert lo a t. induction n as [|n IH]; intros lo a t H; simpl in H |- *; [split; [right | eauto]; done|].
  destruct (g lo t) as [[v t1]|]; [|done].
  destruct (store a lo v) as [a1|] eqn:Hst; [|done].
  destruct (IH _ _ _ H) as [Hl [[vs t2] Hf]].
  apply store_Some_iff in Hst as [Hlo ->]. rewrite length_insert in Hl.
  rewrite Hf. split; [lia | eauto].
Qed.

(** A loop [for (i = 0; i < n; i++) a[i] = e_i;] whose right-hand sides
    are defined on [[0, n)] completes exactly when [a] has [n] slots. *)
Lemma for_loop_fill_total {A T} (g : nat -> T -> option (A * T)) n (a : list A) t :
  (forall i t, (i < n)%nat -> is_Some (g i t)) ->
  is_Some (for_loop (fill_body g) 0 n (a, t)) <-> (n <= length a)%nat.
Proof.
  intros Hg. split.
  - intros [r Hr]. destruct (for_loop_fill_Some g 0 n a t r Hr) as [[|] _]; lia.
  - intros Hn. assert (Hv : forall lo k t, (lo + k <= n)%nat -> is_Some (fill_values g lo k t)).
    { intros lo k. revert lo. induction k as [|k IH]; intros lo u Hk; simpl; [eauto|].
      destruct (Hg lo u) as [[v u1] ->]; [lia|].
      destruct (IH (S lo) u1) as [[vs u2] ->]; [lia | eauto]. }
    rewrite for_loop_fill by lia. destruct (Hv 0%nat n t) as [[vs t'] ->]; [lia | eauto].
Qed.

(** ** [int16_t] *)

Local Open Scope Z_scope.

Definition int16_min : Z := -32768.
Definition int16_max : Z := 32767.

(** Converting an integer to [int16_t] keeps it modulo [2^16] and reads
    the result as a signed value (the behaviour of GCC for the Pico's
    ARM target, implementation-defined in C). *)
Definition to_int16 (z : Z) : Z :=
  let m := z mod 65536 in if Z.leb 32768 m then m - 65536 else m.

Lemma to_int16_id z : int16_min <= z <= int16_max -> to_int16 z = z.
Proof.
  unfold to_int16, int16_min, int16_max. intros H.
  destruct (Z.leb_spec 0 z).
  - rewrite Z.mod_small by lia. destruct (Z.leb_spec 32768 z); lia.
  - assert (E : z mod 65536 = z + 65536)
      by (symmetry; apply Z.mod_unique with (-1); lia).
    rewrite E. destruct (Z.leb_spec 32768 (z + 65536)); lia.
Qed.

Lemma to_int16_range z : int16_min <= to_int16 z <= int16_max.
Proof.
  unfold to_int16, int16_min, int16_max.
  pose proof (Z.mod_pos_bound z 65536).
  destruct (Z.leb_spec 32768 (z mod 65536)); lia.
Qed.

Create HintDb fw.
Create Rewrite HintDb fw_rw.
#[export] Hint Resolve store_length to_int16_range star_refl : fw.
#[export] Hint Rewrite @store_in_bounds using lia : fw_rw.
#[export] Hint Rewrite to_int16_id using (unfold int16_min, int16_max in *; lia) : fw_rw.

(** Unfold the option-returning stores of a loop body whose indices are
    in bounds. *)
Ltac fw_simpl := repeat (autorewrite with fw_rw in *; simpl in *).
