(* ===== verification/Float32.v ===== *)
(** * IEEE-754 binary32, the C [float] of the firmware

    The Standard Library's [SpecFloat] is the executable specification of
    IEEE-754 arithmetic (round to nearest, ties to even) for a precision
    and a maximal exponent; [F32] instantiates it at 24 and 128, the
    format of [float] on the Pico's Cortex-M0+ (software floating point
    from the compiler's runtime, IEEE-conformant for [/] and [>]).

    It models the three float operations of [src/firmware.cpp]: the
    conversion of an [int16_t] to [float] in [raw[i] / 2048.0f], the
    division by the literal [2048.0f], and the comparison [prob > 0.5f].
    The lemmas compute these operations symbolically through [SpecFloat]'s
    rounding functions: rounding a mantissa that is already canonical is
    the identity, an integer of at most 24 bits converts exactly, dividing
    a normal float by [2048.0f] subtracts 11 from its exponent, and [>]
    against [0.5f] decides the comparison of the rational values.  *)

From Stdlib Require Import ZArith QArith Lia SpecFloat.

Module F32.
Local Open Scope Z_scope.

(** [float]: precision 24 bits, infinities at exponent 128. *)
Definition prec : Z := 24.
Definition emax : Z := 128.
Definition float := spec_float.

(** [(float)n] for an integer [n]: round [n * 2^0] to the format. *)
Definition of_int (n : Z) : float := binary_normalize prec emax n 0 false.

(** The division [x / y] of two floats. *)
Definition div (x y : float) : float := SFdiv prec emax x y.

(** [x > y]: false when either side is NaN. *)
Definition gt (x y : float) : bool :=
  match SFcompare x y with Some Gt => true | _ => false end.

(** The literals [2048.0f] and [0.5f], rounded as the compiler does. *)
Definition lit_2048 : float := Eval compute in of_int 2048.

Definition lit_half : float := Eval compute in binary_normalize prec emax 1 (-1) false.

(** A float is valid when its mantissa is canonical and its exponent in
    range: every float the hardware can hold. *)
Definition valid (x : float) : bool := valid_binary prec emax x.

(** The rational value of a finite float ([0] for the others). *)
Definition value (x : float) : Q :=
  match x with
  | S754_finite s m e =>
      let z := if s then Zneg m else Zpos m in
      match e with
      | Zneg k => z # (2 ^ k)%positive
      | _ => inject_Z (z * 2 ^ e)
      end
  | _ => 0%Q
  end.

(** [SpecFloat] computes with the [Corelib] copies of the integer
    operations; this exposes them as the [Stdlib] ones that [lia] knows. *)
Ltac sf_z :=
  change IntDef.Z.add with Z.add in *; change IntDef.Z.sub with Z.sub in *;
  change IntDef.Z.mul with Z.mul in *; change IntDef.Z.leb with Z.leb in *;
  change IntDef.Z.eqb with Z.eqb in *; change IntDef.Z.min with Z.min in *;
  change IntDef.Z.max with Z.max in *; change IntDef.Z.compare with Z.compare in *;
  change IntDef.Z.shiftl with Z.shiftl in *; change IntDef.Z.div_eucl with Z.div_eucl in *;
  change IntDef.Z.even with Z.even in *.

Lemma digits2_pos_size p : digits2_pos p = Pos.size p.
Proof. induction p; simpl; congruence. Qed.

Lemma fexp_canonical e : -149 <= e -> fexp prec emax (Zpos 24 + e) = e.
Proof. intros. unfold fexp, emin, prec, emax. sf_z. lia. Qed.

Lemma shr_fexp_canonical m e :
  Pos.size m = 24%positive -> -149 <= e ->
  shr_fexp prec emax (Zpos m) e loc_Exact = (Build_shr_record (Zpos m) false false, e).
Proof.
  intros Hm He. unfold shr_fexp.
  change (Zdigits2 (Zpos m)) with (Zpos (digits2_pos m)).
  rewrite digits2_pos_size, Hm. sf_z. rewrite fexp_canonical, Z.sub_diag by assumption. reflexivity.
Qed.

Lemma round_aux_exact s m e :
  Pos.size m = 24%positive -> -149 <= e <= 104 ->
  binary_round_aux prec emax s (Zpos m) e loc_Exact = S754_finite s m e.
Proof.
  intros Hm He. unfold binary_round_aux.
  rewrite shr_fexp_canonical by (assumption || lia).
  cbn [round_nearest_even shr_m loc_of_shr_record].
  rewrite shr_fexp_canonical by (assumption || lia).
  cbn [shr_m]. sf_z. replace (e <=? emax - prec) with true; [reflexivity|].
  symmetry. apply Z.leb_le. unfold emax, prec. lia.
Qed.

Lemma shr_fexp_half m e :
  Pos.size m = 24%positive -> -150 <= e ->
  shr_fexp prec emax (Zpos (xO m)) e loc_Exact = (Build_shr_record (Zpos m) false false, e + 1).
Proof.
  intros Hm He. unfold shr_fexp.
  change (Zdigits2 (Zpos (xO m))) with (Zpos (Pos.succ (digits2_pos m))).
  rewrite digits2_pos_size, Hm. sf_z.
  replace (fexp prec emax (Zpos (Pos.succ 24) + e) - e) with 1
    by (unfold fexp, emin, prec, emax; sf_z; lia).
  reflexivity.
Qed.

Lemma round_aux_half s m e :
  Pos.size m = 24%positive -> -150 <= e <= 103 ->
  binary_round_aux prec emax s (Zpos (xO m)) e loc_Exact = S754_finite s m (e + 1).
Proof.
  intros Hm He. unfold binary_round_aux.
  rewrite shr_fexp_half by (assumption || lia).
  cbn [round_nearest_even shr_m loc_of_shr_record].
  rewrite shr_fexp_canonical by (assumption || lia).
  cbn [shr_m]. sf_z. replace (e + 1 <=? emax - prec) with true; [reflexivity|].
  symmetry. apply Z.leb_le. unfold emax, prec. lia.
Qed.

Lemma div_2048_exact s m e :
  Pos.size m = 24%positive -> -137 <= e <= 115 ->
  div (S754_finite s m e) lit_2048 = S754_finite s m (e - 11).
Proof.
  intros Hm He. unfold div, SFdiv, lit_2048, SFdiv_core_binary.
  change (Zdigits2 (Zpos m)) with (Zpos (digits2_pos m)).
  rewrite digits2_pos_size, Hm. sf_z.
  change (Zdigits2 8388608) with 24.
  replace (Z.min (fexp prec emax (24 + e - (24 + -12))) (e - -12)) with (e - 12)
    by (unfold fexp, emin, prec, emax; lia).
  replace (e - -12 - (e - 12)) with 24 by lia.
  cbv beta iota.
  assert (Hdiv : forall a b, Z.div_eucl a b = (a / b, a mod b))
    by (intros a b; unfold Z.div, Z.modulo; destruct (Z.div_eucl a b); reflexivity).
  rewrite Hdiv.
  replace (Z.shiftl (Zpos m) 24) with (Zpos (xO m) * 8388608)
    by (rewrite Z.shiftl_mul_pow2 by lia; lia).
  rewrite Z.div_mul, Z.mod_mul by lia. cbv beta iota.
  change (new_location 8388608 0) with loc_Exact.
  rewrite Bool.xorb_false_r, round_aux_half by (assumption || lia).
  f_equal. lia.
Qed.

Lemma iter_xO_spec p k : Zpos (Pos.iter xO p k) = Zpos p * 2 ^ Zpos k /\ Pos.size (Pos.iter xO p k) = (Pos.size p + k)%positive.
Proof.
  induction k using Pos.peano_ind.
  - split; simpl; lia.
  - rewrite Pos.iter_succ. destruct IHk as [H1 H2]. split.
    + change (Zpos (xO (Pos.iter xO p k))) with (2 * Zpos (Pos.iter xO p k)).
      rewrite H1, Pos2Z.inj_succ, Z.pow_succ_r by lia. lia.
    + simpl. rewrite H2. lia.
Qed.

Lemma binary_round_int s p :
  (Pos.size p <= 24)%positive ->
  exists m, binary_round prec emax s p 0 = S754_finite s m (Zpos (Pos.size p) - 24)
         /\ Pos.size m = 24%positive
         /\ Zpos m = Zpos p * 2 ^ (24 - Zpos (Pos.size p)).
Proof.
  intros Hp. unfold binary_round.
  rewrite digits2_pos_size. sf_z.
  replace (fexp prec emax (Zpos (Pos.size p) + 0)) with (Zpos (Pos.size p) - 24)
    by (unfold fexp, emin, prec, emax; lia).
  unfold shl_align. sf_z.
  destruct (Zpos (Pos.size p) - 24 - 0) as [|k|k] eqn:Ek.
  - exists p. rewrite round_aux_exact by lia. split; [f_equal; lia|].
    split; [lia|]. replace (24 - Zpos (Pos.size p)) with 0 by lia. lia.
  - lia.
  - destruct (iter_xO_spec p k) as [H1 H2].
    exists (Pos.iter xO p k). cbv beta iota.
    rewrite round_aux_exact by lia. split; [reflexivity|]. split; [lia|].
    rewrite H1. f_equal. f_equal. lia.
Qed.

Lemma value_neg_exp s m e : e < 0 ->
  value (S754_finite s m e) = ((if s then Zneg m else Zpos m) # Z.to_pos (2 ^ (- e)))%Q.
Proof.
  intros He. destruct e as [|k|k]; try lia. simpl. f_equal.
  apply Pos2Z.inj. rewrite Z2Pos.id by lia. now rewrite Pos2Z.inj_pow.
Qed.

Lemma size_le_24 p : Zpos p < 2 ^ 24 -> (Pos.size p <= 24)%positive.
Proof.
  intros Hp. assert (H : 2 ^ Zpos (Pos.size p) <= 2 * Zpos p)
    by (rewrite <- Pos2Z.inj_pow; exact (Pos.size_le p)).
  destruct (Z.le_gt_cases (Zpos (Pos.size p)) 24) as [|Hs]; [lia|].
  assert (2 ^ 25 <= 2 ^ Zpos (Pos.size p)) by (apply Z.pow_le_mono_r; lia). lia.
Qed.

Lemma valid_canonical s m e : Pos.size m = 24%positive -> -149 <= e <= 104 ->
  valid (S754_finite s m e) = true.
Proof.
  intros Hm He. unfold valid, valid_binary, bounded, canonical_mantissa.
  rewrite digits2_pos_size, Hm. sf_z. rewrite fexp_canonical by lia.
  rewrite Z.eqb_refl. simpl. apply Z.leb_le. unfold emax, prec. lia.
Qed.

Lemma valid_finite_bounds s m e : valid (S754_finite s m e) = true ->
  -149 <= e <= 104 /\ Zpos (Pos.size m) <= 24 /\ (-149 < e -> Zpos (Pos.size m) = 24).
Proof.
  unfold valid, valid_binary, bounded, canonical_mantissa.
  rewrite digits2_pos_size. sf_z. intros H.
  apply andb_prop in H as [H1 H2]. apply Z.eqb_eq in H1. apply Z.leb_le in H2.
  unfold fexp, emin, prec, emax in *. lia.
Qed.

Lemma size_bounds m : 2 ^ (Zpos (Pos.size m) - 1) <= Zpos m < 2 ^ Zpos (Pos.size m).
Proof.
  assert (H1 : Zpos m < 2 ^ Zpos (Pos.size m))
    by (rewrite <- Pos2Z.inj_pow; exact (Pos.size_gt m)).
  assert (H2 : 2 ^ Zpos (Pos.size m) <= 2 * Zpos m)
    by (rewrite <- Pos2Z.inj_pow; exact (Pos.size_le m)).
  split; [|exact H1].
  replace (Zpos (Pos.size m)) with (Zpos (Pos.size m) - 1 + 1) in H2 by lia.
  rewrite Z.pow_add_r in H2 by lia. lia.
Qed.

Lemma half_lt_value_pos m e :
  (1 # 2 < value (S754_finite false m e))%Q <-> (e < 0 -> 2 ^ (- e) < 2 * Zpos m).
Proof.
  destruct (Z.ltb_spec e 0) as [He|He].
  - rewrite value_neg_exp by lia. unfold Qlt; cbn [Qnum Qden].
    rewrite Z2Pos.id by (apply Z.pow_pos_nonneg; lia). lia.
  - destruct e as [|k|k]; try lia; unfold value, Qlt, inject_Z; cbn [Qnum Qden];
      [|pose proof (Z.pow_pos_nonneg 2 (Zpos k))]; split; intros; lia.
Qed.

Lemma half_lt_value_neg m e : ~ (1 # 2 < value (S754_finite true m e))%Q.
Proof.
  destruct (Z.ltb_spec e 0) as [He|He].
  - rewrite value_neg_exp by lia. unfold Qlt; cbn [Qnum Qden]. lia.
  - destruct e as [|k|k]; try lia; unfold value, Qlt, inject_Z; cbn [Qnum Qden];
      [|pose proof (Z.pow_pos_nonneg 2 (Zpos k))]; lia.
Qed.

Lemma gt_half_lt m e : e < -24 -> gt (S754_finite false m e) lit_half = false.
Proof.
  intros H. unfold gt, lit_half, SFcompare. sf_z.
  rewrite (proj2 (Z.compare_lt_iff _ _) H). reflexivity.
Qed.
Lemma gt_half_gt m e : -24 < e -> gt (S754_finite false m e) lit_half = true.
Proof.
  intros H. unfold gt, lit_half, SFcompare. sf_z.
  rewrite (proj2 (Z.compare_gt_iff _ _) H). reflexivity.
Qed.
Lemma compare_cont_Eq m h : Pos.compare_cont Eq m h = Pos.compare m h.
Proof. reflexivity. Qed.

Lemma compare_gt_true m h :
  match Pos.compare m h with Gt => true | _ => false end = true <-> Zpos h < Zpos m.
Proof.
  destruct (Pos.compare_spec m h); split; intros; try discriminate; try reflexivity; lia.
Qed.

Lemma gt_half_eq m : gt (S754_finite false m (-24)) lit_half =
  match Pos.compare m 8388608 with Gt => true | _ => false end.
Proof.
  unfold gt, lit_half, SFcompare. sf_z. rewrite Z.compare_refl.
  change PosDef.Pos.compare_cont with Pos.compare_cont. rewrite compare_cont_Eq. reflexivity.
Qed.
Theorem gt_half_correct x : valid x = true ->
  gt x lit_half = true <-> x = S754_infinity false \/ (1 # 2 < value x)%Q.
Proof.
  intros Hv. destruct x as [s|s| |s m e].
  - unfold Qlt; simpl. split; [discriminate | intros [H|H]; [discriminate | lia]].
  - destruct s; unfold Qlt; simpl; split; auto; [discriminate | intros [H|H]; [discriminate | lia]].
  - unfold Qlt; simpl. split; [discriminate | intros [H|H]; [discriminate | lia]].
  - destruct s.
    + pose proof (half_lt_value_neg m e) as Hneg.
      change (gt (S754_finite true m e) lit_half) with false.
      split; [discriminate | intros [H|H]; [discriminate | contradiction]].
    + rewrite half_lt_value_pos. destruct (valid_finite_bounds _ _ _ Hv) as (He & Hs & Hn).
      pose proof (size_bounds m) as Hb.
      assert (H24 : 2 ^ Zpos (Pos.size m) <= 2 ^ 24) by (apply Z.pow_le_mono_r; lia).
      destruct (Z.lt_trichotomy e (-24)) as [Hlt | [-> | Hgt]].
      * rewrite gt_half_lt by exact Hlt.
        assert (Hp : 2 ^ 25 <= 2 ^ (- e)) by (apply Z.pow_le_mono_r; lia).
        split; [discriminate | intros [H|H]; [discriminate | specialize (H ltac:(lia)); lia]].
      * rewrite gt_half_eq, compare_gt_true. change (2 ^ (- -24)) with 16777216.
        split; [intros H; right; lia | intros [H|H]; [discriminate | specialize (H ltac:(lia)); lia]].
      * rewrite gt_half_gt by exact Hgt. split; [|reflexivity]. intros _. right. intros Hneg.
        assert (2 ^ (- e) <= 2 ^ 23) by (apply Z.pow_le_mono_r; lia).
        replace (Zpos (Pos.size m) - 1) with 23 in Hb by lia. lia.
Qed.

End F32.
