(* ===== verification/Config.v ===== *)
(** * Compile-time configuration of [src/firmware.cpp]

    The constants of lines 10, 19 and 20 and the sizes of the two global
    arrays ([tensor_arena], line 11, and [audio_buffer], line 21).  They
    are the only configuration the firmware has: there are no flags and
    no configuration file. *)

From Stdlib Require Import ZArith.

Module Config.
Local Open Scope Z_scope.

(** [constexpr int kTensorArenaSize = 128 * 1024;] *)
Definition kTensorArenaSize : Z := 128 * 1024.

(** [constexpr int kAudioSampleRate = 16000;] (Hz).  The firmware never
    reads it: the ADC runs at its own rate. *)
Definition kAudioSampleRate : Z := 16000.

(** [constexpr int kAudioFrameSize = 160;] samples per inference. *)
Definition kAudioFrameSize : Z := 160.

(** The number of elements of [audio_buffer] and of [tensor_arena]. *)
Definition audio_buffer_len : nat := Z.to_nat kAudioFrameSize.
Definition tensor_arena_len : nat := Z.to_nat kTensorArenaSize.

End Config.
