(* ===== verification/Adc.v ===== *)
(** * Frame source: the ADC and [read_microphone]

    [src/firmware.cpp] lines 28-34:
<<
    void read_microphone(int16_t* buffer, int size) {
        for (int i = 0; i < size; i++) {
            buffer[i] = adc_read();  // 12-bit ADC, centered around 0
        }
    }
>>
    [adc_read] is the Pico SDK's blocking conversion call.  It is not code
    of the repository: [Class AdcDevice] states what the firmware relies
    on, a state that every call advances and the datasheet's promise that
    a conversion is a 12-bit unsigned value.  The result, a [uint16_t], is
    stored into an [int16_t] slot, written out with [to_int16].  The loop
    also records each value [adc_read] returned, which [main] logs as the
    frame's reads.  A store past the end of [buffer] is undefined
    behaviour and makes the loop [None]. *)

From stdpp Require Import base list.
From Stdlib Require Import ZArith Lia.
From S2P Require Import Prelude Config.

(** The ADC channel selected by [adc_select_input(0)]. *)
Class AdcDevice := {
  adc_state : Type;
  (** [uint16_t adc_read(void)]: one conversion, and the next state. *)
  adc_read : adc_state -> Z * adc_state;
  (** The RP2040 ADC has 12 bits: results lie in [[0, 4095]]. *)
  adc_read_range : forall s, (0 <= fst (adc_read s) < 4096)%Z
}.

Section Microphone.
Context `{AdcDevice}.

(** Line 32, [buffer[i] = adc_read();]: the call, whose result is
    logged, then the conversion of the [uint16_t] result to [int16_t]
    for the store.  The loop's state is the ADC and the log of the
    conversions made so far. *)
Definition adc_convert (i : nat) (t : adc_state * list Z) : option (Z * (adc_state * list Z)) :=
  let '(a, log) := t in
  let '(v, a') := adc_read a in
  Some (to_int16 v, (a', log ++ [v])).

(** [read_microphone(buffer, size)]: the new contents of [buffer], the
    ADC's state and the conversions read, in order. *)
Definition read_microphone (buffer : list Z) (size : Z) (a : adc_state)
  : option (list Z * (adc_state * list Z)) :=
  for_loop (fill_body adc_convert) 0 (Z.to_nat size) (buffer, (a, [])).

(** The next [n] conversions of the ADC, in order, and its state after
    them. *)
Fixpoint adc_samples (n : nat) (a : adc_state) : list Z * adc_state :=
  match n with
  | O => ([], a)
  | S n' => let '(v, a1) := adc_read a in
            let '(vs, a2) := adc_samples n' a1 in (v :: vs, a2)
  end.

(** ** Lemmas *)

Lemma adc_samples_length n a : length (adc_samples n a).1 = n.
Proof.
  revert a. induction n as [|n IH]; intros a; simpl; [done|].
  destruct (adc_read a) as [v a1]. specialize (IH a1).
  destruct (adc_samples n a1). simpl in *. by rewrite IH.
Qed.

Lemma adc_samples_range n a :
  Forall (fun v => 0 <= v < 4096)%Z (adc_samples n a).1.
Proof.
  revert a. induction n as [|n IH]; intros a; simpl; [constructor|].
  pose proof (adc_read_range a) as Hr.
  destruct (adc_read a) as [v a1]. specialize (IH a1).
  destruct (adc_samples n a1). simpl in *. by constructor.
Qed.

(** The values the loop stores are the samples, unchanged: a 12-bit
    value fits an [int16_t]; the log grows by the same samples. *)
Lemma read_microphone_values lo n a log :
  fill_values adc_convert lo n (a, log) =
  let '(vs, a') := adc_samples n a in Some (vs, (a', log ++ vs)).
Proof.
  revert lo a log. induction n as [|n IH]; intros lo a log; simpl; [by rewrite app_nil_r|].
  pose proof (adc_read_range a) as Hr.
  destruct (adc_read a) as [v a1]. rewrite IH.
  destruct (adc_samples n a1). simpl in Hr.
  rewrite to_int16_id by (unfold int16_min, int16_max; lia).
  by rewrite <- app_assoc.
Qed.
End Microphone.

Section MicrophoneTheorems.
Context `{AdcDevice}.

(** With [size] at most the buffer's length, the loop writes
    slots [0 .. size-1] with the next [size] conversions and keeps the
    rest. *)
Lemma read_microphone_prefix buffer size a :
  (0 <= size)%Z -> (Z.to_nat size <= length buffer)%nat ->
  read_microphone buffer size a =
  let '(vs, a') := adc_samples (Z.to_nat size) a in
  Some (vs ++ drop (Z.to_nat size) buffer, (a', vs)).
Proof.
  intros _ Hle. unfold read_microphone.
  rewrite for_loop_fill by lia. rewrite read_microphone_values.
  by destruct (adc_samples (Z.to_nat size) a).
Qed.

(** C13: [read_microphone(audio_buffer, kAudioFrameSize)] never
    short-fills: it stores into every one of the 160 slots, in order,
    the next 160 conversions of the ADC (unchanged by the [int16_t]
    conversion), makes exactly those 160 calls of [adc_read], and
    leaves the ADC 160 conversions further on. *)
Theorem read_microphone_frame (buffer : list Z) (a : adc_state) :
  length buffer = Config.audio_buffer_len ->
  read_microphone buffer Config.kAudioFrameSize a =
  let '(vs, a') := adc_samples 160 a in Some (vs, (a', vs)).
Proof.
  intros Hlen. unfold Config.audio_buffer_len, Config.kAudioFrameSize in *.
  rewrite read_microphone_prefix by lia.
  change (Z.to_nat 160) with 160%nat in *.
  pose proof (adc_samples_length 160 a) as Hl.
  destruct (adc_samples 160 a) as [vs a']. simpl in Hl.
  rewrite drop_ge by lia.
  by rewrite app_nil_r.
Qed.

(** C22: [read_microphone] always terminates, and it completes without
    undefined behaviour exactly when [size] (a negative one counting as
    no iteration) is at most the buffer's length; it never stops early,
    since [adc_read] cannot fail. *)
Theorem read_microphone_total (buffer : list Z) (size : Z) (a : adc_state) :
  is_Some (read_microphone buffer size a) <-> (Z.to_nat size <= length buffer)%nat.
Proof.
  unfold read_microphone. apply for_loop_fill_total.
  intros i [t log] _. simpl. destruct (adc_read t). eauto.
Qed.
End MicrophoneTheorems.
