(* ===== verification/Preprocess.v ===== *)
(** * Preprocessor: [preprocess_audio] and the loop inlined in [main]

    [src/firmware.cpp] lines 36-41 define
<<
    void preprocess_audio(int16_t* raw, float* processed, int size) {
        for (int i = 0; i < size; i++) {
            processed[i] = raw[i] / 2048.0f; // normalize int16 -> float [-1,1]
        }
    }
>>
    and [main] never calls it: lines 82-84 repeat its loop, writing
    straight into the model's input tensor,
<<
        for (int i = 0; i < kAudioFrameSize; i++) {
            input->data.f[i] = audio_buffer[i] / 2048.0f;
        }
>>
    Both loops are modelled with [fill_body]; a read of [raw[i]] or a
    store into [processed[i]] out of bounds is undefined behaviour and
    makes the loop [None].  One sample is normalised by [normalize_sample],
    the binary32 expression [(float)raw[i] / 2048.0f]. *)

From stdpp Require Import base list.
From Stdlib Require Import ZArith QArith Lia SpecFloat.
From S2P Require Import Prelude Config Float32.

(** [raw[i] / 2048.0f]: the [int16_t] operand is converted to [float],
    then divided by the literal. *)
Definition normalize_sample (n : Z) : F32.float := F32.div (F32.of_int n) F32.lit_2048.

(** The loop body's right-hand side: read [raw[i]], normalise it. *)
Definition normalize_at (raw : list Z) (i : nat) (u : unit) : option (F32.float * unit) :=
  match load raw i with
  | Some v => Some (normalize_sample v, u)
  | None => None
  end.

(** [preprocess_audio(raw, processed, size)]: the new contents of
    [processed]. *)
Definition preprocess_audio (raw : list Z) (processed : list F32.float) (size : Z)
  : option (list F32.float) :=
  match for_loop (fill_body (normalize_at raw)) 0 (Z.to_nat size) (processed, tt) with
  | Some (p, _) => Some p
  | None => None
  end.

(** Lines 82-84 of [main]: the same loop with the bound
    [kAudioFrameSize], from [audio_buffer] into [input->data.f]. *)
Definition preprocess_inline (audio_buffer : list Z) (input_data : list F32.float)
  : option (list F32.float) :=
  match for_loop (fill_body (normalize_at audio_buffer)) 0
          (Z.to_nat Config.kAudioFrameSize) (input_data, tt) with
  | Some (p, _) => Some p
  | None => None
  end.

(** ** Lemmas *)

Lemma normalize_at_values (raw : list Z) lo n :
  (lo + n <= length raw)%nat ->
  fill_values (normalize_at raw) lo n tt = Some (map normalize_sample (take n (drop lo raw)), tt).
Proof.
  revert lo. induction n as [|n IH]; intros lo Hle; simpl; [done|].
  destruct (lookup_lt_is_Some_2 raw lo) as [v Hv]; [lia|].
  unfold normalize_at, load. rewrite Hv, IH by lia.
  rewrite (drop_S raw v lo Hv). done.
Qed.

(** The right-hand sides of a completed loop read only inside [raw]. *)
Lemma normalize_at_Some (raw : list Z) lo n :
  is_Some (fill_values (normalize_at raw) lo n tt) -> (lo + n <= length raw)%nat \/ n = 0%nat.
Proof.
  revert lo. induction n as [|n IH]; intros lo [r Hr]; [by right|]. left. simpl in Hr.
  unfold normalize_at, load in Hr. destruct (raw !! lo) eqn:Hl; [|done].
  apply lookup_lt_Some in Hl.
  destruct (fill_values _ (S lo) n tt) as [[vs u]|] eqn:Hf; [|done].
  destruct (IH (S lo)) as [| ->]; [eauto | lia | lia].
Qed.

(** The exact binary32 form of a nonzero sample: dividing by [2048.0f]
    keeps the mantissa of [(float)n] and subtracts 11 from its exponent. *)
Lemma normalize_sample_nonzero (s : bool) (p : positive) : (Pos.size p <= 24)%positive ->
  exists m, normalize_sample (if s then Zneg p else Zpos p)
            = S754_finite s m (Zpos (Pos.size p) - 35)
         /\ Pos.size m = 24%positive
         /\ Zpos m = (Zpos p * 2 ^ (24 - Zpos (Pos.size p)))%Z.
Proof.
  intros Hp. destruct (F32.binary_round_int s p Hp) as (m & Hr & Hm & Hv).
  exists m. split; [|split; assumption].
  unfold normalize_sample. destruct s;
    [ change (F32.of_int (Zneg p)) with (binary_round F32.prec F32.emax true p 0)
    | change (F32.of_int (Zpos p)) with (binary_round F32.prec F32.emax false p 0) ];
    rewrite Hr, F32.div_2048_exact by lia; f_equal; lia.
Qed.

Local Open Scope Z_scope.

(** ** Theorems *)

Lemma normalize_sample_value (n : Z) :
  int16_min <= n <= int16_max ->
  F32.valid (normalize_sample n) = true /\ (F32.value (normalize_sample n) == n # 2048)%Q.
Proof.
  unfold int16_min, int16_max. intros Hn.
  destruct n as [|p|p]; [split; reflexivity| |].
  - assert (Hs : (Pos.size p <= 24)%positive) by (apply F32.size_le_24; lia).
    destruct (normalize_sample_nonzero false p Hs) as (m & -> & Hm & Hv).
    split; [apply F32.valid_canonical; lia|].
    rewrite F32.value_neg_exp by lia. unfold Qeq; cbn [Qnum Qden].
    rewrite Z2Pos.id by (apply Z.pow_pos_nonneg; lia). rewrite Hv.
    replace (- (Zpos (Pos.size p) - 35)) with ((24 - Zpos (Pos.size p)) + 11) by lia.
    rewrite Z.pow_add_r by lia. lia.
  - assert (Hs : (Pos.size p <= 24)%positive) by (apply F32.size_le_24; lia).
    destruct (normalize_sample_nonzero true p Hs) as (m & -> & Hm & Hv).
    split; [apply F32.valid_canonical; lia|].
    rewrite F32.value_neg_exp by lia. unfold Qeq; cbn [Qnum Qden].
    rewrite Z2Pos.id by (apply Z.pow_pos_nonneg; lia).
    change (Zneg m) with (- Zpos m). change (Zneg p) with (- Zpos p). rewrite Hv.
    replace (- (Zpos (Pos.size p) - 35)) with ((24 - Zpos (Pos.size p)) + 11) by lia.
    rewrite Z.pow_add_r by lia. lia.
Qed.

(** C12: normalisation is exact.  For every [int16_t] sample [n],
    [(float)n / 2048.0f] is a valid binary32 value equal to the rational
    [n / 2048]: no rounding happens anywhere in the preprocessor. *)
Theorem normalize_sample_exact (n : Z) :
  int16_min <= n <= int16_max ->
  F32.valid (normalize_sample n) = true /\ (F32.value (normalize_sample n) == n # 2048)%Q.
Proof. apply normalize_sample_value. Qed.

Lemma normalize_sample_exact_witness :
  (int16_min <= 2048 <= int16_max) /\
  F32.valid (normalize_sample 2048) = true /\ (F32.value (normalize_sample 2048) == 2048 # 2048)%Q.
Proof.
  split; [unfold int16_min, int16_max; lia|].
  apply (normalize_sample_exact 2048). unfold int16_min, int16_max; lia.
Defined.

(** C24: what the ADC can deliver normalises into [[0, 4095/2048]]: the
    samples are unsigned 12-bit values, not "centered around 0" as the
    comment of line 32 says, so the model never sees a negative input
    and sees inputs above [1] for every conversion above [2048]. *)
Theorem normalize_adc_range (n : Z) :
  0 <= n < 4096 ->
  (0 <= F32.value (normalize_sample n) <= 4095 # 2048)%Q /\
  (2048 < n -> (1 < F32.value (normalize_sample n))%Q).
Proof.
  intros Hn.
  destruct (normalize_sample_value n) as [_ Hv]; [unfold int16_min, int16_max; lia|].
  rewrite Hv. unfold Qle, Qlt; cbn [Qnum Qden]. split; [split|]; intros; lia.
Qed.

Lemma normalize_adc_range_witness :
  (0 <= 4095 < 4096) /\
  (0 <= F32.value (normalize_sample 4095) <= 4095 # 2048)%Q /\
  (2048 < 4095 -> (1 < F32.value (normalize_sample 4095))%Q).
Proof. split; [lia|]. apply (normalize_adc_range 4095). lia. Defined.

Lemma preprocess_audio_fill (raw : list Z) (processed : list F32.float) (size : Z) :
  0 <= size -> (Z.to_nat size <= length raw)%nat -> (Z.to_nat size <= length processed)%nat ->
  preprocess_audio raw processed size =
  Some (map normalize_sample (take (Z.to_nat size) raw) ++ drop (Z.to_nat size) processed).
Proof.
  intros _ Hr Hp. unfold preprocess_audio.
  rewrite for_loop_fill by lia. rewrite normalize_at_values by lia.
  by rewrite drop_0.
Qed.

(** C14: [preprocess_audio] with a [size] that fits both arrays writes
    [processed[0 .. size-1]] with the normalised [raw[0 .. size-1]], in
    order, and leaves the rest of [processed] alone. *)
Theorem preprocess_audio_spec (raw : list Z) (processed : list F32.float) (size : Z) :
  0 <= size -> (Z.to_nat size <= length raw)%nat -> (Z.to_nat size <= length processed)%nat ->
  preprocess_audio raw processed size =
  Some (map normalize_sample (take (Z.to_nat size) raw) ++ drop (Z.to_nat size) processed).
Proof. apply preprocess_audio_fill. Qed.

Lemma preprocess_audio_spec_witness :
  preprocess_audio [2048; -2048] [S754_nan; S754_nan; S754_nan] 2 =
  Some [S754_finite false 8388608 (-23); S754_finite true 8388608 (-23); S754_nan].
Proof.
  rewrite (preprocess_audio_spec [2048; -2048] [S754_nan; S754_nan; S754_nan] 2);
    [vm_compute; reflexivity | lia | simpl; lia | simpl; lia].
Defined.

(** C23: [preprocess_audio] always terminates, and it completes without
    undefined behaviour exactly when both [raw] and [processed] hold at
    least [size] elements; otherwise it reads or writes past an array. *)
Theorem preprocess_audio_total (raw : list Z) (processed : list F32.float) (size : Z) :
  is_Some (preprocess_audio raw processed size) <->
  (Z.to_nat size <= length raw)%nat /\ (Z.to_nat size <= length processed)%nat.
Proof.
  unfold preprocess_audio. split.
  - intros Hs. destruct (for_loop (fill_body _) 0 _ _) as [[p u]|] eqn:E; [|by destruct Hs].
    destruct (for_loop_fill_Some _ _ _ _ _ _ E) as [Hp Hv].
    destruct (normalize_at_Some raw 0 _ Hv); lia.
  - intros [Hr Hp]. rewrite for_loop_fill, normalize_at_values by lia. eauto.
Qed.

(** C25: the loop in [main] checks nothing about the input tensor: when
    [input->data.f] holds fewer than [kAudioFrameSize] floats (a model
    whose input is smaller than 160), it stores past the tensor, which is
    undefined behaviour. *)
Theorem preprocess_inline_overflow (audio_buffer : list Z) (input_data : list F32.float) :
  length audio_buffer = Config.audio_buffer_len ->
  (length input_data < Config.audio_buffer_len)%nat ->
  preprocess_inline audio_buffer input_data = None.
Proof.
  intros Ha Hi. unfold preprocess_inline, Config.audio_buffer_len in *.
  rewrite for_loop_fill_overflow; [done | | simpl; lia].
  intros i u Hlt. unfold normalize_at, load.
  destruct (lookup_lt_is_Some_2 audio_buffer i) as [v ->]; [simpl in *; lia | eauto].
Qed.

Lemma preprocess_inline_overflow_witness :
  (length (repeat 0%Z 160%nat) = Config.audio_buffer_len) /\
  (length (@nil F32.float) < Config.audio_buffer_len)%nat /\
  (preprocess_inline (repeat 0%Z 160%nat) [] = None).
Proof.
  split; [reflexivity|]. split; [vm_compute; lia|].
  apply preprocess_inline_overflow; [reflexivity | vm_compute; lia].
Defined.
