(* ===== verification/Engine.v ===== *)
(** * Inference engine adapter: the interface to TensorFlow Lite Micro

    [src/firmware.cpp] keeps four globals (lines 13-16): the [model]
    returned by [tflite::GetModel(model_tflite)], the [interpreter]
    pointer, and the [input] and [output] tensor handles.  TFLM itself
    (the flatbuffer reader, the [AllOpsResolver], the [MicroInterpreter]
    and its operator kernels) is a library the firmware only calls: the
    class [MicroInterpreter] below lists those calls with the types the
    firmware sees, and the one law it relies on.

    - [schema_version] is [TFLITE_SCHEMA_VERSION], the version the
      library was compiled for, and [model_version] is
      [model->version()] of the embedded [model_tflite] (line 56).
    - [make_interpreter n] is the construction of [static_interpreter]
      over [tensor_arena] with [n] bytes (lines 62-67).
    - [allocate_tensors] is [interpreter->AllocateTensors()] (line 69).
    - [input_data] and [output_data] are the floats [input(0)->data.f]
      and [output(0)->data.f] hold once tensors are allocated (lines
      74-75): the memory the handles point into, inside the arena.
    - [invoke i inp out] is [interpreter->Invoke()] (line 87): it reads the
      input tensor's memory and may rewrite both tensors (they live in the
      arena the interpreter owns), and returns a status.

    The law [invoke_sizes] says that [Invoke] does not resize a tensor:
    TFLM plans all memory in [AllocateTensors] and never allocates
    afterwards. *)

From stdpp Require Import base list.
From Stdlib Require Import ZArith.
From S2P Require Import Prelude Float32.

(** [TfLiteStatus], from TFLM's [c/c_api_types.h]. *)
Inductive TfLiteStatus :=
| kTfLiteOk
| kTfLiteError
| kTfLiteDelegateError
| kTfLiteApplicationError
| kTfLiteDelegateDataNotFound
| kTfLiteDelegateDataWriteError
| kTfLiteDelegateDataReadError
| kTfLiteUnresolvedOps
| kTfLiteCancelled.

#[export] Instance TfLiteStatus_eq_dec : EqDecision TfLiteStatus.
Proof. solve_decision. Qed.

(** [status != kTfLiteOk], the test of lines 69 and 87. *)
Definition status_ok (st : TfLiteStatus) : bool :=
  match st with kTfLiteOk => true | _ => false end.

Class MicroInterpreter := {
  interp_state : Type;
  schema_version : Z;
  model_version : Z;
  make_interpreter : Z -> interp_state;
  allocate_tensors : interp_state -> TfLiteStatus * interp_state;
  input_data : interp_state -> list F32.float;
  output_data : interp_state -> list F32.float;
  invoke : interp_state -> list F32.float -> list F32.float ->
           TfLiteStatus * interp_state * list F32.float * list F32.float;
  invoke_sizes : forall i inp out st i' inp' out',
    invoke i inp out = (st, i', inp', out') ->
    length inp' = length inp /\ length out' = length out
}.

Lemma status_ok_true st : status_ok st = true <-> st = kTfLiteOk.
Proof. destruct st; simpl; intuition congruence. Qed.
