(* ===== verification/Decision.v ===== *)
(** * Decision policy: [prob > 0.5f] and [on_footstep_detected]

    [src/firmware.cpp] lines 23-26 and 92-97:
<<
    void on_footstep_detected() {
        printf("Footstep detected!\n");
    }
    ...
        float prob = output->data.f[0];
        if (prob > 0.5f) {  // threshold for footstep
            on_footstep_detected();
        }
>>
    The rule is stateless: one comparison per inference, at most one
    message, no debouncing.  The comparison is binary32's, so a NaN output
    never fires and [+inf] always does. *)

From Stdlib Require Import ZArith QArith String List SpecFloat.
Import ListNotations.
From S2P Require Import Float32.

(** A line of text as [printf] writes it, newline included. *)
Definition line (s : string) : string := s ++ String (Ascii.ascii_of_nat 10) EmptyString.

(** The text [on_footstep_detected] prints. *)
Definition msg_footstep : string := line "Footstep detected!".

(** [on_footstep_detected()]: what it writes to stdout. *)
Definition on_footstep_detected : list string := [msg_footstep]%list.

(** The condition of line 95. *)
Definition footstep_threshold (prob : F32.float) : bool := F32.gt prob F32.lit_half.

(** Lines 95-97: the output of the decision for one inference. *)
Definition decide_footstep (prob : F32.float) : list string :=
  if footstep_threshold prob then on_footstep_detected else []%list.

(** C11: the decision fires exactly when the model's output, a valid
    binary32 value, is [+inf] or a finite number strictly above [1/2]: a
    NaN, [0.5f] itself, every value at or below [1/2] and [-inf] never
    fire. *)
Theorem footstep_threshold_correct (prob : F32.float) :
  F32.valid prob = true ->
  footstep_threshold prob = true <->
  prob = S754_infinity false \/ (1 # 2 < F32.value prob)%Q.
Proof. apply F32.gt_half_correct. Qed.

Lemma footstep_threshold_correct_witness :
  F32.valid (S754_finite false 15099494 (-24)) = true /\
  (footstep_threshold (S754_finite false 15099494 (-24)) = true <->
   S754_finite false 15099494 (-24) = S754_infinity false \/
   (1 # 2 < F32.value (S754_finite false 15099494 (-24)))%Q).
Proof.
  split; [vm_compute; reflexivity|].
  apply footstep_threshold_correct. vm_compute. reflexivity.
Defined.

