(* ===== verification/Stubs.v ===== *)
(** * Test doubles for the two interfaces

    Concrete instances of [AdcDevice] and [MicroInterpreter], used by the
    witnesses to apply the theorems at concrete inputs, with stubs like
    the spec's "model stub that always outputs 0.9".
    - [counter_adc]: the [k]-th conversion returns [k mod 4096].
    - [stub_engine version alloc st p]: a model whose [version()] is
      [version], whose [AllocateTensors] returns [alloc], whose input
      tensor holds [kAudioFrameSize] floats and output one, and whose every
      [Invoke] returns [st] and writes [p] into [output->data.f[0]]; its
      state counts the inferences. *)

From stdpp Require Import base list.
From Stdlib Require Import ZArith Lia SpecFloat.
From S2P Require Import Prelude Config Float32 Adc Engine.

#[local] Lemma counter_adc_range (k : nat) : (0 <= Z.of_nat k mod 4096 < 4096)%Z.
Proof. apply Z.mod_pos_bound. lia. Qed.

Definition counter_adc : AdcDevice := {|
  adc_state := nat;
  adc_read := fun k => (Z.of_nat k mod 4096, S k)%Z;
  adc_read_range := counter_adc_range
|}.

(** The schema version of the TFLM runtime the stub stands for. *)
Definition stub_schema_version : Z := 3.

#[local] Lemma stub_invoke_sizes (st : TfLiteStatus) (p : F32.float) (i : nat)
  (inp out : list F32.float) st' (i' : nat) (inp' out' : list F32.float) :
  (st, S i, inp, <[0 := p]> out) = (st', i', inp', out') ->
  length inp' = length inp /\ length out' = length out.
Proof. intros [= <- <- <- <-]. by rewrite length_insert. Qed.

Definition stub_engine (version : Z) (alloc st : TfLiteStatus) (p : F32.float) : MicroInterpreter := {|
  interp_state := nat;
  schema_version := stub_schema_version;
  model_version := version;
  make_interpreter := fun _ => 0%nat;
  allocate_tensors := fun i => (alloc, i);
  input_data := fun _ => repeat (S754_zero false) 160;
  output_data := fun _ => [S754_zero false];
  invoke := fun i inp out => (st, S i, inp, <[0 := p]> out);
  invoke_sizes := fun i inp out st' i' inp' out' => stub_invoke_sizes st p i inp out st' i' inp' out'
|}.

(** The float nearest [0.9], as the literal [0.9f] rounds. *)
Definition f32_0_9 : F32.float := F32.div (F32.of_int 9) (F32.of_int 10).

(** The stub used by most witnesses: schema version 3, a successful
    allocation, and every [Invoke] succeeds with the output [0.9f]. *)
Definition engine_ok : MicroInterpreter := stub_engine 3 kTfLiteOk kTfLiteOk f32_0_9.

(** Every stub meets the model contract of the loop. *)
Lemma stub_input_shape v al st p : forall i : @interp_state (stub_engine v al st p),
  (160 <= length (@input_data (stub_engine v al st p) i))%nat.
Proof. intros i. simpl. lia. Qed.
Lemma stub_output_shape v al st p : forall i : @interp_state (stub_engine v al st p),
  (1 <= length (@output_data (stub_engine v al st p) i))%nat.
Proof. intros i. simpl. lia. Qed.

Definition engine_ok_input_shape := stub_input_shape 3 kTfLiteOk kTfLiteOk f32_0_9.
Definition engine_ok_output_shape := stub_output_shape 3 kTfLiteOk kTfLiteOk f32_0_9.

(** ** Witnesses of the frame source's theorems, on [counter_adc] *)

Section AdcWitnesses.
#[local] Existing Instance counter_adc.

Lemma read_microphone_frame_witness :
  length (repeat 0%Z 160) = Config.audio_buffer_len /\
  read_microphone (repeat 0%Z 160) Config.kAudioFrameSize (5%nat : adc_state) =
  let '(vs, a') := adc_samples 160 (5%nat : adc_state) in Some (vs, (a', vs)).
Proof.
  assert (Hl : length (repeat 0%Z 160) = Config.audio_buffer_len) by reflexivity.
  split; [exact Hl | exact (@read_microphone_frame counter_adc _ 5%nat Hl)].
Defined.

End AdcWitnesses.
