(* ===== verification/Firmware.v ===== *)
(** * Control loop: [main] as a state machine

    [src/firmware.cpp] lines 43-101.  The firmware's state is [fw_state]:
    the phase of [main] it is in, the ADC channel, the [interpreter]
    pointer, the floats the [input] and [output] handles point to, the
    global [audio_buffer], and the log of every call the firmware makes to
    the SDK and to TFLM, [printf] and [sleep_ms] included, in order.

    [step] runs one phase of [main]:
    - [Uninitialized] (lines 44-55): stdio and ADC set-up, the start
      message, [GetModel];
    - [Validating] (lines 56-72): the schema check, the interpreter's
      construction over [tensor_arena], [AllocateTensors]; either error
      prints its message and enters [while (1);];
    - [Ready] (lines 74-75): the tensor handles;
    - [Running] (lines 77-100): one iteration of [while (1)];
    - [Halted r]: one turn of [while (1);], which changes nothing;
    - [Undefined]: the C program has no meaning any more (an access out of
      bounds, a null handle); nothing follows.
    [fw_step] is the same transition relation, with no step out of
    [Undefined]; [reachable] is its closure from [init_state].  The
    theorems here are about startup and one iteration; the invariant of
    the reachable states is in [Invariant.v]. *)

From Stdlib Require Import ZArith String Lia.
From stdpp Require Import base list.
From S2P Require Import Prelude Config Float32 Adc Preprocess Engine Decision Stubs.

(** The calls of [main], as the log records them. *)
Inductive event :=
| EvStdioInit                       (** [stdio_init_all()] *)
| EvSleep (ms : Z)                  (** [sleep_ms(ms)] *)
| EvPrint (s : string)              (** [printf] of the text [s] *)
| EvAdcInit                         (** [adc_init()] *)
| EvAdcGpioInit (pin : Z)           (** [adc_gpio_init(pin)] *)
| EvAdcSelectInput (ch : Z)         (** [adc_select_input(ch)] *)
| EvGetModel                        (** [tflite::GetModel(model_tflite)] *)
| EvConstruct (arena_bytes : Z)     (** [MicroInterpreter(model, resolver, tensor_arena, n)] *)
| EvAllocate (st : TfLiteStatus)    (** [AllocateTensors()] and its status *)
| EvInput                           (** [interpreter->input(0)] *)
| EvOutput                          (** [interpreter->output(0)] *)
| EvAdcRead (v : Z)                 (** [adc_read()] and the value it returned *)
| EvInvoke (st : TfLiteStatus).     (** [Invoke()] and its status *)

Inductive halt_reason := SchemaMismatch | AllocationFailed.

Inductive phase :=
| Uninitialized | Validating | Ready | Running | Halted (r : halt_reason) | Undefined.

#[export] Instance halt_reason_eq_dec : EqDecision halt_reason.
Proof. solve_decision. Qed.
#[export] Instance phase_eq_dec : EqDecision phase.
Proof. solve_decision. Qed.

(** The texts [main] prints. *)
Definition msg_start : string := line "Starting footstep detector...".
Definition msg_schema_mismatch : string := line "Model schema mismatch!".
Definition msg_alloc_failed : string := line "Tensor allocation failed".
Definition msg_inference_failed : string := line "Inference failed!".

Section Firmware.
Context `{AdcDevice} `{MicroInterpreter}.

Record fw_state := mk_fw {
  fw_phase : phase;
  fw_adc : adc_state;
  fw_interp : option interp_state;
  fw_input : list F32.float;
  fw_output : list F32.float;
  fw_audio : list Z;
  fw_trace : list event
}.

Definition set_phase (p : phase) (s : fw_state) : fw_state :=
  mk_fw p (fw_adc s) (fw_interp s) (fw_input s) (fw_output s) (fw_audio s) (fw_trace s).

(** Program start: [audio_buffer] is a zero-initialised global. *)
Definition init_state (a : adc_state) : fw_state :=
  mk_fw Uninitialized a None [] [] (repeat 0%Z Config.audio_buffer_len) [].

(** Lines 44-55: set-up, then [model = tflite::GetModel(model_tflite)]. *)
Definition boot (s : fw_state) : fw_state :=
  mk_fw Validating (fw_adc s) (fw_interp s) (fw_input s) (fw_output s) (fw_audio s)
    (fw_trace s ++ [EvStdioInit; EvSleep 500; EvPrint msg_start; EvAdcInit;
                    EvAdcGpioInit 26; EvAdcSelectInput 0; EvGetModel]).

(** Lines 56-72: the schema check, then the interpreter over the arena
    and [AllocateTensors]; a failure prints and halts. *)
Definition validate (s : fw_state) : fw_state :=
  if Z.eqb model_version schema_version then
    let '(st, i) := allocate_tensors (make_interpreter Config.kTensorArenaSize) in
    let tr := fw_trace s ++ [EvConstruct Config.kTensorArenaSize; EvAllocate st] in
    if status_ok st
    then mk_fw Ready (fw_adc s) (Some i) (fw_input s) (fw_output s) (fw_audio s) tr
    else mk_fw (Halted AllocationFailed) (fw_adc s) (Some i) (fw_input s) (fw_output s)
           (fw_audio s) (tr ++ [EvPrint msg_alloc_failed])
  else mk_fw (Halted SchemaMismatch) (fw_adc s) (fw_interp s) (fw_input s) (fw_output s)
         (fw_audio s) (fw_trace s ++ [EvPrint msg_schema_mismatch]).

(** Lines 74-75: [input = interpreter->input(0)],
    [output = interpreter->output(0)]. *)
Definition take_handles (s : fw_state) : fw_state :=
  match fw_interp s with
  | Some i => mk_fw Running (fw_adc s) (Some i) (input_data i) (output_data i) (fw_audio s)
                (fw_trace s ++ [EvInput; EvOutput])
  | None => set_phase Undefined s
  end.

(** Appends calls to the log. *)
Definition log_events (s : fw_state) (es : list event) : fw_state :=
  mk_fw (fw_phase s) (fw_adc s) (fw_interp s) (fw_input s) (fw_output s) (fw_audio s)
    (fw_trace s ++ es).

(** Lines 87-99, once [Invoke] has returned [st] and left the state
    [s]: a failure prints and [continue]s, skipping the decision and
    [sleep_ms(10)]; a success reads [output->data.f[0]], decides and
    sleeps. *)
Definition after_invoke (st : TfLiteStatus) (s : fw_state) : fw_state :=
  if negb (status_ok st) then log_events s [EvPrint msg_inference_failed]
  else
    match load (fw_output s) 0 with
    | None => set_phase Undefined s
    | Some prob => log_events s (map EvPrint (decide_footstep prob) ++ [EvSleep 10])
    end.

(** Lines 78-99: one iteration of [while (1)]: the frame, the
    preprocessing into the input tensor, [Invoke], and what follows it. *)
Definition cycle (s : fw_state) : fw_state :=
  match fw_interp s with
  | None => set_phase Undefined s
  | Some i =>
    match read_microphone (fw_audio s) Config.kAudioFrameSize (fw_adc s) with
    | None => set_phase Undefined s
    | Some (audio, (a', conv)) =>
      match preprocess_inline audio (fw_input s) with
      | None => set_phase Undefined s
      | Some inp =>
        let '(st, i', inp', out') := invoke i inp (fw_output s) in
        after_invoke st (mk_fw Running a' (Some i') inp' out' audio
                           (fw_trace s ++ map EvAdcRead conv ++ [EvInvoke st]))
      end
    end
  end.

Definition step (s : fw_state) : fw_state :=
  match fw_phase s with
  | Uninitialized => boot s
  | Validating => validate s
  | Ready => take_handles s
  | Running => cycle s
  | Halted _ => s
  | Undefined => s
  end.

Fixpoint run (n : nat) (s : fw_state) : fw_state :=
  match n with O => s | S n' => run n' (step s) end.

Inductive fw_step : fw_state -> fw_state -> Prop :=
| fw_step_boot s : fw_phase s = Uninitialized -> fw_step s (boot s)
| fw_step_validate s : fw_phase s = Validating -> fw_step s (validate s)
| fw_step_handles s : fw_phase s = Ready -> fw_step s (take_handles s)
| fw_step_cycle s : fw_phase s = Running -> fw_step s (cycle s)
| fw_step_spin s r : fw_phase s = Halted r -> fw_step s s.

Definition reachable (a : adc_state) (s : fw_state) : Prop := star fw_step (init_state a) s.
End Firmware.

(** The events a successful start logs before the loop. *)
Definition boot_events : list event :=
  [EvStdioInit; EvSleep 500; EvPrint msg_start; EvAdcInit;
   EvAdcGpioInit 26; EvAdcSelectInput 0; EvGetModel].

Section StepLemmas.
Context `{AdcDevice} `{MicroInterpreter}.

Lemma fw_step_step s s' : fw_step s s' -> s' = step s /\ fw_phase s <> Undefined.
Proof. destruct 1; unfold step; rewrite H1; split; congruence. Qed.

Lemma step_fw_step s : fw_phase s <> Undefined -> fw_step s (step s).
Proof.
  intros Hp. unfold step. destruct (fw_phase s) eqn:E; try congruence; econstructor; eauto.
Qed.

Lemma run_add n m s : run (n + m) s = run m (run n s).
Proof. revert s. induction n; simpl; auto. Qed.

Lemma run_S' n s : run (S n) s = step (run n s).
Proof. rewrite <- Nat.add_1_r, run_add. reflexivity. Qed.

Lemma step_halted s r : fw_phase s = Halted r -> step s = s.
Proof. intros Hp. unfold step. by rewrite Hp. Qed.

Lemma run_halted n s r : fw_phase s = Halted r -> run n s = s.
Proof. intros Hp. induction n; simpl; [done|]. by rewrite step_halted with (r := r). Qed.

Lemma run_init_2 a :
  run 2 (init_state a) = validate (boot (init_state a)).
Proof. reflexivity. Qed.

(** C9: a model whose schema version differs from the runtime's halts
    the firmware in [while (1);] after printing the mismatch: the
    interpreter is never built, and from then on every step leaves the
    state as it is, so no frame is ever read and no inference ever
    runs. *)
Theorem startup_schema_mismatch (a : adc_state) :
  model_version <> schema_version ->
  forall n, run (2 + n) (init_state a) =
    mk_fw (Halted SchemaMismatch) a None [] [] (repeat 0%Z Config.audio_buffer_len)
      (boot_events ++ [EvPrint msg_schema_mismatch]).
Proof.
  intros Hv n. rewrite run_add, run_init_2.
  unfold validate. simpl. rewrite (proj2 (Z.eqb_neq _ _) Hv).
  by apply run_halted with (r := SchemaMismatch).
Qed.

(** C10: when [AllocateTensors] fails (arena too small, an operator
    missing), the firmware prints the failure and halts for ever, with
    the interpreter built once and no frame read. *)
Theorem startup_alloc_failed (a : adc_state) st i :
  model_version = schema_version ->
  allocate_tensors (make_interpreter Config.kTensorArenaSize) = (st, i) ->
  st <> kTfLiteOk ->
  forall n, run (2 + n) (init_state a) =
    mk_fw (Halted AllocationFailed) a (Some i) [] [] (repeat 0%Z Config.audio_buffer_len)
      (boot_events ++ [EvConstruct Config.kTensorArenaSize; EvAllocate st;
                       EvPrint msg_alloc_failed]).
Proof.
  intros Hv Ha Hst n. rewrite run_add, run_init_2.
  unfold validate. simpl. rewrite Hv, Z.eqb_refl, Ha.
  destruct (status_ok st) eqn:E; [apply status_ok_true in E; congruence|].
  by apply run_halted with (r := AllocationFailed).
Qed.

(** C8: when the schema matches and [AllocateTensors] succeeds, three
    steps bring the firmware to its loop, holding the handles of the
    allocated interpreter, after exactly these calls: set-up, start
    message, [GetModel], one interpreter over the 131072-byte arena,
    one [AllocateTensors], [input(0)], [output(0)]. *)
Theorem startup_ok (a : adc_state) i :
  model_version = schema_version ->
  allocate_tensors (make_interpreter Config.kTensorArenaSize) = (kTfLiteOk, i) ->
  run 3 (init_state a) =
    mk_fw Running a (Some i) (input_data i) (output_data i)
      (repeat 0%Z Config.audio_buffer_len)
      (boot_events ++ [EvConstruct 131072; EvAllocate kTfLiteOk; EvInput; EvOutput]).
Proof.
  intros Hv Ha. change (run 3 (init_state a)) with (step (validate (boot (init_state a)))).
  unfold validate. simpl. rewrite Hv, Z.eqb_refl, Ha. reflexivity.
Qed.
End StepLemmas.

(** The TFLM set-up calls, and the calls the loop makes. *)
Definition is_setup (e : event) : bool :=
  match e with EvConstruct _ | EvAllocate _ => true | _ => false end.
Definition is_loop_call (e : event) : bool :=
  match e with EvAdcRead _ | EvInvoke _ => true | _ => false end.

Section Cycle.
Context `{AdcDevice} `{MicroInterpreter}.

(** One iteration with a full [audio_buffer] and an input tensor of at
    least 160 floats: the frame is the next 160 conversions, the input
    tensor receives their normalisations, then [Invoke] and the
    decision. *)
Lemma cycle_frame s i :
  fw_interp s = Some i -> length (fw_audio s) = 160%nat ->
  (160 <= length (fw_input s))%nat ->
  cycle s =
    let '(vs, a') := adc_samples 160 (fw_adc s) in
    let '(st, i', inp', out') :=
      invoke i (map normalize_sample vs ++ drop 160 (fw_input s)) (fw_output s) in
    after_invoke st (mk_fw Running a' (Some i') inp' out' vs
                       (fw_trace s ++ map EvAdcRead vs ++ [EvInvoke st])).
Proof.
  intros Hi Ha Hin. unfold cycle. rewrite Hi, read_microphone_prefix
    by (unfold Config.kAudioFrameSize; lia).
  change (Z.to_nat Config.kAudioFrameSize) with 160%nat.
  pose proof (adc_samples_length 160 (fw_adc s)) as Hl.
  destruct (adc_samples 160 (fw_adc s)) as [vs a']. simpl in Hl.
  rewrite (drop_ge (fw_audio s)), app_nil_r by lia.
  unfold preprocess_inline. rewrite for_loop_fill by (unfold Config.kAudioFrameSize; simpl; lia).
  change (Z.to_nat Config.kAudioFrameSize) with 160%nat.
  rewrite normalize_at_values by (rewrite Hl; apply le_n).
  rewrite take_0, drop_0, (take_ge vs) by (rewrite Hl; apply le_n). reflexivity.
Qed.

Lemma filter_reads vs : List.filter is_setup (map EvAdcRead vs) = [] /\
                        List.filter is_loop_call (map EvAdcRead vs) = map EvAdcRead vs.
Proof. induction vs as [|v vs [IH1 IH2]]; simpl; [done|]. by rewrite IH1, IH2. Qed.

Lemma filter_prints (f : event -> bool) ms :
  (forall m, f (EvPrint m) = false) -> List.filter f (map EvPrint ms) = [].
Proof. intros Hf. induction ms as [|m ms IH]; simpl; [done|]. by rewrite Hf. Qed.

(** What follows [Invoke] only appends prints and delays to the log, as
    long as the output tensor is not empty. *)
Lemma after_invoke_appends st s :
  (1 <= length (fw_output s))%nat ->
  exists es, after_invoke st s = log_events s es /\ List.filter is_setup es = [].
Proof.
  intros Hl. unfold after_invoke. destruct (status_ok st); cbn [negb]; [|by eexists].
  destruct (lookup_lt_is_Some_2 (fw_output s) 0) as [prob Hprob]; [lia|].
  unfold load. rewrite Hprob. eexists. split; [reflexivity|].
  repeat rewrite List.filter_app. rewrite ?filter_prints by done. reflexivity.
Qed.

(** What follows [Invoke] leaves [audio_buffer] alone. *)
Lemma after_invoke_audio st s : fw_audio (after_invoke st s) = fw_audio s.
Proof. unfold after_invoke. by repeat case_match. Qed.

(** An iteration either stays in the loop or leaves the program's
    meaning. *)
Lemma cycle_phase s : fw_phase (cycle s) <> Undefined -> fw_phase (cycle s) = Running.
Proof. unfold cycle, after_invoke. repeat (case_match; simpl; try done). Qed.

End Cycle.

Section Iteration.
Context `{AdcDevice} `{MicroInterpreter}.

(** C7: an iteration whose [Invoke] fails (line 87) has read a full
    frame and handed the model its normalisation; it prints
    ["Inference failed!"] and goes straight on to the next iteration:
    no decision, no [sleep_ms(10)], no halt. *)
Theorem iteration_inference_failed s i vs a' st i' inp' out' :
  fw_phase s = Running -> fw_interp s = Some i ->
  length (fw_audio s) = 160%nat -> (160 <= length (fw_input s))%nat ->
  adc_samples 160 (fw_adc s) = (vs, a') ->
  invoke i (map normalize_sample vs ++ drop 160 (fw_input s)) (fw_output s) = (st, i', inp', out') ->
  st <> kTfLiteOk ->
  step s = mk_fw Running a' (Some i') inp' out' vs
             (fw_trace s ++ map EvAdcRead vs ++ [EvInvoke st; EvPrint msg_inference_failed]).
Proof.
  intros Hp Hi Ha Hin Hs Hinv Hst. unfold step. rewrite Hp, (cycle_frame s i) by done.
  rewrite Hs, Hinv. unfold after_invoke.
  destruct (status_ok st) eqn:E; [apply status_ok_true in E; congruence|].
  unfold log_events. cbn [negb fw_phase fw_adc fw_interp fw_input fw_output fw_audio fw_trace].
  f_equal. rewrite <- ?app_assoc. reflexivity.
Qed.

(** C6: an iteration whose [Invoke] succeeds reads [output->data.f[0]],
    reports a footstep when it exceeds [0.5f], and sleeps 10 ms. *)
Theorem iteration_inference_ok s i vs a' i' inp' out' prob :
  fw_phase s = Running -> fw_interp s = Some i ->
  length (fw_audio s) = 160%nat -> (160 <= length (fw_input s))%nat ->
  adc_samples 160 (fw_adc s) = (vs, a') ->
  invoke i (map normalize_sample vs ++ drop 160 (fw_input s)) (fw_output s) = (kTfLiteOk, i', inp', out') ->
  out' !! 0%nat = Some prob ->
  step s = mk_fw Running a' (Some i') inp' out' vs
             (fw_trace s ++ map EvAdcRead vs ++ [EvInvoke kTfLiteOk] ++
              map EvPrint (decide_footstep prob) ++ [EvSleep 10]).
Proof.
  intros Hp Hi Ha Hin Hs Hinv Hout. unfold step. rewrite Hp, (cycle_frame s i) by done.
  rewrite Hs, Hinv. unfold after_invoke. cbn [negb status_ok fw_output]. unfold load. rewrite Hout.
  unfold log_events. cbn [fw_phase fw_adc fw_interp fw_input fw_output fw_audio fw_trace].
  f_equal. rewrite <- ?app_assoc. reflexivity.
Qed.
End Iteration.


(** ** Witnesses, on the test doubles of [Stubs] *)

Section WitnessMismatch.
#[local] Existing Instance counter_adc.
Definition engine_mismatch : MicroInterpreter := stub_engine 2 kTfLiteOk kTfLiteOk f32_0_9.
#[local] Existing Instance engine_mismatch.

Lemma startup_schema_mismatch_witness :
  model_version <> schema_version /\
  run (2 + 4) (init_state 0%nat) =
    mk_fw (Halted SchemaMismatch) 0%nat None [] [] (repeat 0%Z Config.audio_buffer_len)
      (boot_events ++ [EvPrint msg_schema_mismatch]).
Proof.
  assert (Hv : model_version <> schema_version) by (vm_compute; discriminate).
  split; [exact Hv | apply (@startup_schema_mismatch counter_adc engine_mismatch 0%nat Hv 4)].
Defined.
End WitnessMismatch.

Section WitnessAllocFailed.
#[local] Existing Instance counter_adc.
Definition engine_alloc_failed : MicroInterpreter := stub_engine 3 kTfLiteError kTfLiteOk f32_0_9.
#[local] Existing Instance engine_alloc_failed.

Lemma startup_alloc_failed_witness :
  model_version = schema_version /\
  allocate_tensors (make_interpreter Config.kTensorArenaSize) = (kTfLiteError, 0%nat) /\
  run (2 + 4) (init_state 0%nat) =
    mk_fw (Halted AllocationFailed) 0%nat (Some 0%nat) [] [] (repeat 0%Z Config.audio_buffer_len)
      (boot_events ++ [EvConstruct Config.kTensorArenaSize; EvAllocate kTfLiteError;
                       EvPrint msg_alloc_failed]).
Proof.
  assert (Hv : model_version = schema_version) by reflexivity.
  assert (Ha : allocate_tensors (make_interpreter Config.kTensorArenaSize) = (kTfLiteError, 0%nat))
    by reflexivity.
  split; [exact Hv|]. split; [exact Ha|].
  apply (@startup_alloc_failed counter_adc engine_alloc_failed 0%nat kTfLiteError 0%nat Hv Ha); discriminate.
Defined.
End WitnessAllocFailed.

Section WitnessOk.
#[local] Existing Instance counter_adc.
#[local] Existing Instance engine_ok.

Lemma startup_ok_witness :
  model_version = schema_version /\
  allocate_tensors (make_interpreter Config.kTensorArenaSize) = (kTfLiteOk, 0%nat) /\
  run 3 (init_state 0%nat) =
    mk_fw Running 0%nat (Some 0%nat) (input_data 0%nat) (output_data 0%nat)
      (repeat 0%Z Config.audio_buffer_len)
      (boot_events ++ [EvConstruct 131072; EvAllocate kTfLiteOk; EvInput; EvOutput]).
Proof.
  assert (Hv : model_version = schema_version) by reflexivity.
  assert (Ha : allocate_tensors (make_interpreter Config.kTensorArenaSize) = (kTfLiteOk, 0%nat))
    by reflexivity.
  split; [exact Hv|]. split; [exact Ha|]. exact (@startup_ok counter_adc engine_ok 0%nat 0%nat Hv Ha).
Defined.

End WitnessOk.

Section WitnessIteration.
#[local] Existing Instance counter_adc.
Definition engine_failing : MicroInterpreter := stub_engine 3 kTfLiteOk kTfLiteError f32_0_9.
#[local] Existing Instance engine_failing.

Definition loop_entry_failing : fw_state := run 3 (init_state 0%nat).

Lemma iteration_inference_failed_witness :
  step loop_entry_failing =
    mk_fw Running (adc_samples 160 (fw_adc loop_entry_failing)).2 (Some 1%nat)
      (map normalize_sample (adc_samples 160 (fw_adc loop_entry_failing)).1)
      [f32_0_9] (adc_samples 160 (fw_adc loop_entry_failing)).1
      (fw_trace loop_entry_failing ++ map EvAdcRead (adc_samples 160 (fw_adc loop_entry_failing)).1 ++
       [EvInvoke kTfLiteError; EvPrint msg_inference_failed]).
Proof.
  apply (@iteration_inference_failed counter_adc engine_failing loop_entry_failing 0%nat
           _ _ kTfLiteError); try reflexivity; try (vm_compute; lia).
  discriminate.
Defined.
End WitnessIteration.

Section WitnessIterationOk.
#[local] Existing Instance counter_adc.
#[local] Existing Instance engine_ok.

Lemma iteration_inference_ok_witness :
  step (run 3 (init_state 0%nat)) =
    mk_fw Running (adc_samples 160 (fw_adc (run 3 (init_state 0%nat)))).2 (Some 1%nat)
      (map normalize_sample (adc_samples 160 (fw_adc (run 3 (init_state 0%nat)))).1)
      [f32_0_9] (adc_samples 160 (fw_adc (run 3 (init_state 0%nat)))).1
      (fw_trace (run 3 (init_state 0%nat)) ++
       map EvAdcRead (adc_samples 160 (fw_adc (run 3 (init_state 0%nat)))).1 ++ [EvInvoke kTfLiteOk] ++
       map EvPrint (decide_footstep f32_0_9) ++ [EvSleep 10]).
Proof.
  apply (@iteration_inference_ok counter_adc engine_ok (@run counter_adc engine_ok 3 (@init_state counter_adc engine_ok 0%nat)) 0%nat);
    try reflexivity; try (vm_compute; lia).
Defined.
End WitnessIterationOk.
