(* ===== verification/Invariant.v ===== *)
(** * Invariant, safety and liveness of the control loop

    The reachable states of [main] (the closure of [fw_step] from
    [init_state], [Firmware.v]) satisfy [fw_inv]: [audio_buffer] keeps its
    160 slots, the interpreter exists exactly from [AllocateTensors] on,
    the tensors have the sizes the loop needs, and the log holds one
    interpreter construction over the arena and one [AllocateTensors]
    before any frame read or [Invoke].  The invariant needs a contract on
    the model, which the firmware never checks: its input tensor holds at
    least [kAudioFrameSize] floats and its output at least one.  From it:
    no reachable state is undefined behaviour, the loop runs for ever, the
    buffer only ever holds 12-bit samples, and the arena is bound once. *)

From Stdlib Require Import ZArith String Lia.
From stdpp Require Import base list.
From S2P Require Import Prelude Config Float32 Adc Preprocess Engine Decision Stubs Firmware.

Section Invariant.
Context `{AdcDevice} `{MicroInterpreter}.

(** The contract the model must meet for the firmware to be defined:
    its input tensor holds at least [kAudioFrameSize] floats and its
    output at least one.  The firmware checks neither. *)
Hypothesis input_shape : forall i, (160 <= length (input_data i))%nat.
Hypothesis output_shape : forall i, (1 <= length (output_data i))%nat.

Definition setup_ok : list event :=
  [EvConstruct Config.kTensorArenaSize; EvAllocate kTfLiteOk].

(** What holds in every reachable state: [audio_buffer] has its 160
    elements; the interpreter exists exactly from [AllocateTensors] on;
    in the loop the tensors have the contract's sizes; the log holds
    one interpreter construction over the whole arena and one
    [AllocateTensors], or none, and no frame read or [Invoke] precedes
    them. *)
Definition fw_inv (s : fw_state) : Prop :=
  length (fw_audio s) = 160%nat /\
  match fw_phase s with
  | Uninitialized | Validating | Halted SchemaMismatch =>
      fw_interp s = None /\ List.filter is_setup (fw_trace s) = [] /\
      List.filter is_loop_call (fw_trace s) = []
  | Halted AllocationFailed =>
      is_Some (fw_interp s) /\ List.filter is_loop_call (fw_trace s) = [] /\
      exists st, st <> kTfLiteOk /\
        List.filter is_setup (fw_trace s) = [EvConstruct Config.kTensorArenaSize; EvAllocate st]
  | Ready =>
      is_Some (fw_interp s) /\ List.filter is_setup (fw_trace s) = setup_ok /\
      List.filter is_loop_call (fw_trace s) = []
  | Running =>
      is_Some (fw_interp s) /\ (160 <= length (fw_input s))%nat /\ (1 <= length (fw_output s))%nat /\
      exists pre post, fw_trace s = pre ++ post /\ List.filter is_setup pre = setup_ok /\
        List.filter is_loop_call pre = [] /\ List.filter is_setup post = []
  | Undefined => False
  end.

Lemma fw_inv_init a : fw_inv (init_state a).
Proof. repeat split. Qed.

Lemma fw_inv_cycle s : fw_phase s = Running -> fw_inv s -> fw_inv (cycle s).
Proof.
  intros Hp (Ha & Hs). rewrite Hp in Hs.
  destruct Hs as ([i Hi] & Hin & Hout & pre & post & Htr & Hpre1 & Hpre2 & Hpost).
  rewrite (cycle_frame s i) by done.
  pose proof (adc_samples_length 160 (fw_adc s)) as Hl.
  destruct (adc_samples 160 (fw_adc s)) as [vs a']. simpl in Hl.
  destruct (invoke i _ (fw_output s)) as [[[st i'] inp'] out'] eqn:Hinv.
  destruct (invoke_sizes _ _ _ _ _ _ _ Hinv) as [Hl1 Hl2].
  rewrite length_app, length_map, length_drop in Hl1.
  destruct (after_invoke_appends st (mk_fw Running a' (Some i') inp' out' vs
              (fw_trace s ++ map EvAdcRead vs ++ [EvInvoke st]))) as (es & -> & Hes);
    [simpl; lia|].
  unfold fw_inv; cbn [fw_phase fw_audio fw_input fw_output fw_interp fw_trace log_events].
  split; [done|]. split; [eauto|]. split; [lia|]. split; [lia|].
  exists pre, (post ++ map EvAdcRead vs ++ [EvInvoke st] ++ es).
  rewrite Htr, <- !app_assoc. split; [done|]. split; [done|]. split; [done|].
  rewrite !List.filter_app, Hpost, (proj1 (filter_reads vs)), Hes. done.
Qed.

Lemma fw_inv_step s s' : fw_inv s -> fw_step s s' -> fw_inv s'.
Proof.
  intros [Ha Hm] Hstep. destruct Hstep as [s Hp|s Hp|s Hp|s Hp|s r Hp]; rewrite Hp in Hm.
  - destruct Hm as (Hi & H1 & H2).
    unfold boot, fw_inv; cbn [fw_phase fw_audio fw_interp fw_trace].
    rewrite !List.filter_app, H1, H2. by repeat split.
  - destruct Hm as (Hi & H1 & H2).
    unfold validate. destruct (Z.eqb _ _).
    + destruct (allocate_tensors _) as [st i] eqn:E.
      destruct (status_ok st) eqn:Hst; unfold fw_inv; cbn [fw_phase fw_audio fw_interp fw_trace];
        rewrite !List.filter_app, H1, H2.
      * apply status_ok_true in Hst as ->. by repeat split; eauto.
      * repeat split; eauto. exists st. split; [|done].
        intros ->. discriminate.
    + unfold fw_inv; cbn [fw_phase fw_audio fw_interp fw_trace].
      rewrite !List.filter_app, H1, H2. by repeat split.
  - destruct Hm as ([i Hi] & H1 & H2).
    unfold take_handles. rewrite Hi.
    unfold fw_inv; cbn [fw_phase fw_audio fw_interp fw_trace fw_input fw_output].
    split; [done|]. split; [eauto|]. split; [apply input_shape|]. split; [apply output_shape|].
    exists (fw_trace s), [EvInput; EvOutput]. by repeat split.
  - apply fw_inv_cycle; [done|]. split; [done|]. by rewrite Hp.
  - split; [done|]. by rewrite Hp.
Qed.

(** In the loop, the interpreter exists and the tensors have the sizes
    the iteration needs. *)
Lemma fw_inv_running s :
  fw_inv s -> fw_phase s = Running ->
  exists i, fw_interp s = Some i /\ (160 <= length (fw_input s))%nat /\ (1 <= length (fw_output s))%nat.
Proof. intros [_ Hm] Hp. rewrite Hp in Hm. destruct Hm as ([i Hi] & Hin & Hout & _). eauto. Qed.

Lemma reachable_inv a s : reachable a s -> fw_inv s.
Proof.
  intros Hr. eapply (star_invariant fw_step fw_inv); [| exact Hr | apply fw_inv_init].
  intros. eapply fw_inv_step; eauto.
Qed.

Lemma reachable_step a s : reachable a s -> fw_phase s <> Undefined -> reachable a (step s).
Proof. intros Hr Hp. eapply star_trans; [exact Hr|]. by apply star_one, step_fw_step. Qed.

Lemma reachable_run a n :
  (forall k, (k < n)%nat -> fw_phase (run k (init_state a)) <> Undefined) ->
  reachable a (run n (init_state a)).
Proof.
  induction n as [|n IH]; intros Hd; [apply star_refl|].
  rewrite run_S'. apply reachable_step; [apply IH; intros k Hk; apply Hd; lia | apply Hd; lia].
Qed.

Lemma reachable_phase_defined a s : reachable a s -> fw_phase s <> Undefined.
Proof. intros Hr Hp. pose proof (reachable_inv a s Hr) as [_ Hi]. by rewrite Hp in Hi. Qed.

(** C15: under the contract, every step of the firmware preserves
    [fw_inv]: the buffer keeps its 160 samples, the interpreter and the
    tensor sizes are what its phase needs, and the log keeps exactly one
    successful set-up before any frame read or [Invoke]. *)
Theorem step_preserves_invariant s s' : fw_inv s -> fw_step s s' -> fw_inv s'.
Proof. apply fw_inv_step. Qed.

(** C3: under the contract, no reachable state of the firmware is
    undefined behaviour: every store of [read_microphone] and of the
    preprocessing loop is in bounds, the tensor handles are never null,
    and [output->data.f[0]] always exists. *)
Theorem reachable_defined a s : reachable a s -> fw_phase s <> Undefined.
Proof. apply reachable_phase_defined. Qed.

(** From a reachable state in the loop, a step is one iteration
    [cycle], which stays in the loop and is reachable. *)
Lemma loop_step a s :
  reachable a s -> fw_phase s = Running ->
  step s = cycle s /\ fw_phase (cycle s) = Running /\ reachable a (cycle s).
Proof.
  intros Hr Hp. assert (Hs : step s = cycle s) by (unfold step; by rewrite Hp).
  assert (Hr' : reachable a (cycle s)) by (rewrite <- Hs; apply reachable_step; [done|]; by rewrite Hp).
  split; [done|]. split; [|done]. apply cycle_phase, (reachable_phase_defined a _ Hr').
Qed.

(** Induction over the iterations of the loop: a property of the state
    after [k] iterations that every iteration carries to [k + 1] holds
    after any number of them, all of which stay in the loop. *)
Lemma run_loop_ind a s (P : nat -> fw_state -> Prop) :
  reachable a s -> fw_phase s = Running -> P 0%nat s ->
  (forall k s', reachable a s' -> fw_phase s' = Running -> P k s' -> P (S k) (cycle s')) ->
  forall k, fw_phase (run k s) = Running /\ reachable a (run k s) /\ P k (run k s).
Proof.
  intros Hr Hp HP0 HS k. induction k as [|k (Hpk & Hrk & HPk)]; [done|].
  rewrite run_S'. destruct (loop_step a _ Hrk Hpk) as (-> & Hp' & Hr'). auto.
Qed.

(** C4: the firmware never stops: once the loop is entered, every
    later state is again in the loop, whatever [Invoke] returns, and is
    reachable; with [reachable_defined], each of them has a next
    state. *)
Theorem loop_runs_forever a s :
  reachable a s -> fw_phase s = Running ->
  forall n, fw_phase (run n s) = Running /\ reachable a (run n s).
Proof.
  intros Hr Hp n.
  by destruct (run_loop_ind a s (fun _ _ => True) Hr Hp I (fun _ _ _ _ _ => I) n) as (? & ? & _).
Qed.

(** The values a 12-bit ADC delivers, as [audio_buffer] stores them. *)
Definition adc_sample (v : Z) : Prop := (0 <= v < 4096)%Z.

Lemma cycle_audio s :
  fw_inv s -> fw_phase s = Running -> Forall adc_sample (fw_audio (cycle s)).
Proof.
  intros Hinv Hp. destruct (fw_inv_running s Hinv Hp) as (i & Hi & Hin & _).
  rewrite (cycle_frame s i) by (done || apply Hinv).
  pose proof (adc_samples_range 160 (fw_adc s)) as Hr.
  destruct (adc_samples 160 (fw_adc s)) as [vs a'].
  destruct (invoke i _ (fw_output s)) as [[[st i'] inp'] out'].
  by rewrite after_invoke_audio.
Qed.

(** Every step but an iteration leaves [audio_buffer] as it is. *)
Lemma step_audio s : fw_phase s <> Running -> fw_audio (step s) = fw_audio s.
Proof.
  intros Hp. unfold step, boot, validate, take_handles, set_phase.
  destruct (fw_phase s); try done; by repeat case_match.
Qed.

(** C17: [audio_buffer] is well typed in every reachable state: its 160
    [int16_t] slots only ever hold 12-bit ADC samples, from the
    zero-initialised global through every frame the loop reads. *)
Theorem reachable_audio_samples a s :
  reachable a s -> length (fw_audio s) = 160%nat /\ Forall adc_sample (fw_audio s).
Proof.
  intros Hr.
  assert (Hi : fw_inv s /\ Forall adc_sample (fw_audio s)).
  { eapply (star_invariant fw_step (fun s => fw_inv s /\ Forall adc_sample (fw_audio s)));
      [| exact Hr | split; [apply fw_inv_init|]].
    2: { apply List.Forall_forall. intros x Hx%repeat_spec. subst x. unfold adc_sample. lia. }
    intros s1 s2 [Hinv Hf] Hst. split; [eapply fw_inv_step; eauto|].
    destruct (fw_step_step _ _ Hst) as [-> Hd].
    destruct (decide (fw_phase s1 = Running)) as [Hp|Hp].
    - unfold step. rewrite Hp. by apply cycle_audio.
    - by rewrite step_audio. }
  destruct Hi as [[Ha _] Hf]. done.
Qed.

(** C16: the tensor arena is bound once and never reallocated: every
    reachable log holds either no TFLM set-up call or exactly one
    interpreter construction over the 131072-byte arena followed by one
    [AllocateTensors]; and no frame is read nor [Invoke] called unless
    that allocation succeeded. *)
Theorem arena_allocated_once a s :
  reachable a s ->
  (List.filter is_setup (fw_trace s) = [] \/
   exists st, List.filter is_setup (fw_trace s) = [EvConstruct Config.kTensorArenaSize; EvAllocate st]) /\
  (List.filter is_loop_call (fw_trace s) <> [] ->
   List.filter is_setup (fw_trace s) = [EvConstruct Config.kTensorArenaSize; EvAllocate kTfLiteOk]).
Proof.
  intros Hr. destruct (reachable_inv a s Hr) as [_ Hm].
  destruct (fw_phase s) as [| | | |[]|]; try contradiction.
  1,2,5: destruct Hm as (_ & -> & ->); split; [by left | done].
  - destruct Hm as (_ & -> & ->). split; [right; by eexists | done].
  - destruct Hm as (_ & _ & _ & pre & post & -> & H1 & H2 & H3).
    rewrite List.filter_app, H1, H3. split; [right; by eexists | done].
  - destruct Hm as (_ & -> & st & _ & ->). split; [right; by eexists | done].
Qed.

End Invariant.

(** ** Witnesses, on the test doubles of [Stubs] *)

Section WitnessInvariant.
#[local] Existing Instance counter_adc.
#[local] Existing Instance engine_ok.

Lemma reachable_loop_entry : reachable 0%nat (run 3 (init_state 0%nat)).
Proof.
  apply (@reachable_run counter_adc engine_ok). intros k Hk.
  destruct k as [|[|[|k]]]; [vm_compute; discriminate.. | lia].
Qed.

Lemma reachable_defined_witness :
  reachable 0%nat (run 3 (init_state 0%nat)) /\ fw_phase (run 3 (init_state 0%nat)) <> Undefined.
Proof.
  split; [exact reachable_loop_entry|].
  exact (@reachable_defined counter_adc engine_ok engine_ok_input_shape engine_ok_output_shape 0%nat _ reachable_loop_entry).
Defined.

Lemma step_preserves_invariant_witness :
  fw_inv (run 3 (init_state 0%nat)) /\
  fw_step (run 3 (init_state 0%nat)) (step (run 3 (init_state 0%nat))) /\
  fw_inv (step (run 3 (init_state 0%nat))).
Proof.
  assert (Hi : fw_inv (run 3 (init_state 0%nat)))
    by exact (@reachable_inv counter_adc engine_ok engine_ok_input_shape engine_ok_output_shape
                0%nat _ reachable_loop_entry).
  assert (Hs : fw_step (run 3 (init_state 0%nat)) (step (run 3 (init_state 0%nat))))
    by (apply step_fw_step; vm_compute; discriminate).
  split; [exact Hi|]. split; [exact Hs|].
  exact (@step_preserves_invariant counter_adc engine_ok engine_ok_input_shape engine_ok_output_shape
           _ _ Hi Hs).
Defined.

Lemma loop_runs_forever_witness :
  fw_phase (run 3 (init_state 0%nat)) = Running /\
  fw_phase (run 7 (run 3 (init_state 0%nat))) = Running.
Proof.
  assert (Hp : fw_phase (run 3 (init_state 0%nat)) = Running) by reflexivity.
  split; [exact Hp|].
  exact (proj1 (@loop_runs_forever counter_adc engine_ok engine_ok_input_shape engine_ok_output_shape
                  0%nat _ reachable_loop_entry Hp 7)).
Defined.
Lemma reachable_audio_samples_witness :
  length (fw_audio (run 4 (init_state 0%nat))) = 160%nat /\
  Forall adc_sample (fw_audio (run 4 (init_state 0%nat))).
Proof.
  apply (@reachable_audio_samples counter_adc engine_ok engine_ok_input_shape engine_ok_output_shape 0%nat).
  apply (@reachable_run counter_adc engine_ok). intros k Hk.
  destruct k as [|[|[|[|k]]]]; [vm_compute; discriminate.. | lia].
Defined.

Lemma arena_allocated_once_witness :
  (List.filter is_setup (fw_trace (run 3 (init_state 0%nat))) = [] \/
   exists st, List.filter is_setup (fw_trace (run 3 (init_state 0%nat))) =
              [EvConstruct Config.kTensorArenaSize; EvAllocate st]) /\
  (List.filter is_loop_call (fw_trace (run 3 (init_state 0%nat))) <> [] ->
   List.filter is_setup (fw_trace (run 3 (init_state 0%nat))) =
   [EvConstruct Config.kTensorArenaSize; EvAllocate kTfLiteOk]).
Proof.
  exact (@arena_allocated_once counter_adc engine_ok engine_ok_input_shape engine_ok_output_shape
           0%nat _ reachable_loop_entry).
Defined.
End WitnessInvariant.
