(* ===== verification/Pipeline.v ===== *)
(** * The abstract pipeline and the refinement theorem

    The spec describes the firmware as a state machine
    [Uninitialized -> Validating -> Ready -> Running (cyclic) -> Halted]
    whose running cycle is "fill a frame, normalise, invoke, decide,
    delay".  [spec_step] is that machine over observable calls: a step
    emits the calls it makes, and what the environment answers (the frame
    the ADC delivers, the status of [Invoke], the output value) is left
    free.  It knows nothing of buffers, tensors or the ADC's state.

    [firmware_refines_spec] shows that every step the firmware makes from
    a reachable state is a step of this machine emitting exactly the calls
    the firmware logs, so every log of the firmware is a run of the
    abstract machine ([firmware_trace_is_spec_run]).  [Counting.v]
    counts calls on the abstract runs. *)

From Stdlib Require Import ZArith String Lia SpecFloat.
From stdpp Require Import base list.
From S2P Require Import Prelude Config Float32 Adc Preprocess Engine Decision Stubs Firmware Invariant.

Inductive spec_phase := SUninitialized | SValidating | SReady | SRunning | SHalted.

(** The calls of one cycle, given the frame the ADC delivered, the
    status [Invoke] returned and the model's output: the decision and the
    delay on success, the failure message otherwise. *)
Definition cycle_events (frame : list Z) (st : TfLiteStatus) (prob : F32.float) : list event :=
  map EvAdcRead frame ++ [EvInvoke st] ++
  (if status_ok st then map EvPrint (decide_footstep prob) ++ [EvSleep 10]
   else [EvPrint msg_inference_failed]).

Section Spec.
Context `{MicroInterpreter}.

Inductive spec_step : spec_phase -> list event -> spec_phase -> Prop :=
| ss_boot : spec_step SUninitialized boot_events SValidating
| ss_schema_mismatch :
    model_version <> schema_version ->
    spec_step SValidating [EvPrint msg_schema_mismatch] SHalted
| ss_alloc_failed st :
    model_version = schema_version -> st <> kTfLiteOk ->
    spec_step SValidating [EvConstruct Config.kTensorArenaSize; EvAllocate st;
                           EvPrint msg_alloc_failed] SHalted
| ss_alloc_ok :
    model_version = schema_version ->
    spec_step SValidating [EvConstruct Config.kTensorArenaSize; EvAllocate kTfLiteOk] SReady
| ss_handles : spec_step SReady [EvInput; EvOutput] SRunning
| ss_cycle frame st prob :
    length frame = 160%nat -> Forall (fun v => 0 <= v < 4096)%Z frame ->
    spec_step SRunning (cycle_events frame st prob) SRunning
| ss_halted : spec_step SHalted [] SHalted.

(** Runs of the abstract machine, with the calls they emit. *)
Inductive spec_run : spec_phase -> list event -> spec_phase -> Prop :=
| spec_run_nil p : spec_run p [] p
| spec_run_snoc p1 tr p2 e p3 :
    spec_run p1 tr p2 -> spec_step p2 e p3 -> spec_run p1 (tr ++ e) p3.
End Spec.

Definition abs_phase (p : phase) : spec_phase :=
  match p with
  | Uninitialized => SUninitialized
  | Validating => SValidating
  | Ready => SReady
  | Running => SRunning
  | Halted _ | Undefined => SHalted
  end.

Section Refinement.
Context `{AdcDevice} `{MicroInterpreter}.
Hypothesis input_shape : forall i, (160 <= length (input_data i))%nat.
Hypothesis output_shape : forall i, (1 <= length (output_data i))%nat.

(** One iteration of the loop, seen from outside: it reads a frame of
    160 12-bit conversions, calls [Invoke] once, and then makes the
    calls the abstract cycle prescribes for the status and output it
    got. *)
Lemma cycle_trace s i :
  fw_inv s -> fw_phase s = Running -> fw_interp s = Some i ->
  let vs := (adc_samples 160 (fw_adc s)).1 in
  let r := invoke i (map normalize_sample vs ++ drop 160 (fw_input s)) (fw_output s) in
  fw_phase (cycle s) = Running /\
  fw_trace (cycle s) = fw_trace s ++ cycle_events vs r.1.1.1 (default (S754_nan : F32.float) (r.2 !! 0%nat)).
Proof.
  intros [Ha Hm] Hp Hi. rewrite Hp in Hm. destruct Hm as (_ & Hin & Hout & _).
  rewrite (cycle_frame s i) by done.
  destruct (adc_samples 160 (fw_adc s)) as [vs a']. cbn zeta.
  destruct (invoke i _ (fw_output s)) as [[[st i'] inp'] out'] eqn:Hinv. cbn [fst snd].
  destruct (invoke_sizes _ _ _ _ _ _ _ Hinv) as [_ Hl2].
  unfold after_invoke, cycle_events. destruct (status_ok st); cbn [negb fw_output].
  - destruct (lookup_lt_is_Some_2 out' 0) as [prob Hprob]; [lia|].
    unfold load. rewrite Hprob. unfold log_events. cbn [fw_phase fw_trace default].
    split; [done|]. by rewrite <- !app_assoc.
  - unfold log_events. cbn [fw_phase fw_trace]. split; [done|]. by rewrite <- !app_assoc.
Qed.

(** One iteration of the loop, seen from outside: it reads a frame of
    160 12-bit conversions, calls [Invoke] once, and then makes the
    calls the abstract cycle prescribes for the status and output it
    got. *)
Lemma cycle_observable s :
  fw_inv s -> fw_phase s = Running ->
  exists frame st prob,
    length frame = 160%nat /\ Forall (fun v => 0 <= v < 4096)%Z frame /\
    fw_phase (cycle s) = Running /\
    fw_trace (cycle s) = fw_trace s ++ cycle_events frame st prob.
Proof.
  intros Hinv Hp. pose proof Hinv as [_ Hm]. rewrite Hp in Hm. destruct Hm as ([i Hi] & _).
  destruct (cycle_trace s i Hinv Hp Hi) as [Hp' Htr].
  do 3 eexists. split; [apply adc_samples_length|]. split; [apply adc_samples_range|].
  split; [exact Hp' | exact Htr].
Qed.

Lemma step_refines a s s' :
  reachable a s -> fw_step s s' ->
  exists tr, spec_step (abs_phase (fw_phase s)) tr (abs_phase (fw_phase s')) /\
             fw_trace s' = fw_trace s ++ tr.
Proof.
  intros Hr Hstep. pose proof (reachable_inv input_shape output_shape a s Hr) as Hinv.
  destruct Hstep as [s Hp|s Hp|s Hp|s Hp|s r Hp]; rewrite Hp.
  - exists boot_events. split; [constructor | reflexivity].
  - unfold validate. destruct (Z.eqb_spec model_version schema_version) as [Hv|Hv].
    + destruct (allocate_tensors _) as [st i]. destruct (status_ok st) eqn:Hst.
      * apply status_ok_true in Hst as ->. eexists. split; [by constructor | reflexivity].
      * eexists. split; [|by rewrite <- app_assoc].
        constructor; [done|]. intros ->. discriminate.
    + eexists. split; [by constructor | reflexivity].
  - destruct Hinv as [_ Hm]. rewrite Hp in Hm. destruct Hm as ([i Hi] & _).
    unfold take_handles. rewrite Hi. eexists. split; [constructor | reflexivity].
  - destruct (cycle_observable s Hinv Hp) as (frame & st & prob & Hl & Hrange & Hp' & Htr).
    rewrite Hp'. eexists. split; [by constructor | exact Htr].
  - exists []. split; [constructor | by rewrite app_nil_r].
Qed.

Lemma spec_run_star a s1 s2 :
  star fw_step s1 s2 -> reachable a s1 ->
  spec_run SUninitialized (fw_trace s1) (abs_phase (fw_phase s1)) ->
  spec_run SUninitialized (fw_trace s2) (abs_phase (fw_phase s2)).
Proof.
  induction 1 as [s|s1 s2 s3 Hst _ IH]; intros Hr Hrun; [done|].
  destruct (step_refines a s1 s2 Hr Hst) as (tr & Hspec & Htr).
  apply IH.
  - eapply star_trans; [exact Hr | by apply star_one].
  - rewrite Htr. econstructor; eauto.
Qed.

Lemma reachable_spec_run a s :
  reachable a s -> spec_run SUninitialized (fw_trace s) (abs_phase (fw_phase s)).
Proof.
  intros Hr. eapply spec_run_star; [exact Hr | apply star_refl | constructor].
Qed.

(** C1 (refinement): every step the firmware takes from a reachable
    state is a step of the abstract state machine of the spec, between
    the corresponding phases, and the firmware logs exactly the calls
    that abstract step emits. *)
Theorem firmware_refines_spec a s s' :
  reachable a s -> fw_step s s' ->
  exists tr, spec_step (abs_phase (fw_phase s)) tr (abs_phase (fw_phase s')) /\
             fw_trace s' = fw_trace s ++ tr.
Proof. apply step_refines. Qed.

(** C2 (trace refinement): the log of every reachable state is a run
    of the abstract machine from [Uninitialized]: whatever the ADC and
    the model answer, the firmware only ever makes the sequences of
    calls the spec's state machine allows. *)
Theorem firmware_trace_is_spec_run a s :
  reachable a s -> spec_run SUninitialized (fw_trace s) (abs_phase (fw_phase s)).
Proof. apply reachable_spec_run. Qed.
End Refinement.

(** ** Witnesses *)

Section WitnessRefinement.
#[local] Existing Instance counter_adc.
#[local] Existing Instance engine_ok.

Lemma firmware_refines_spec_witness :
  exists tr, spec_step (abs_phase (fw_phase (run 3 (init_state 0%nat)))) tr
               (abs_phase (fw_phase (step (run 3 (init_state 0%nat))))) /\
             fw_trace (step (run 3 (init_state 0%nat))) = fw_trace (run 3 (init_state 0%nat)) ++ tr.
Proof.
  apply (@firmware_refines_spec counter_adc engine_ok engine_ok_input_shape engine_ok_output_shape
           0%nat _ _ reachable_loop_entry).
  apply step_fw_step. vm_compute. discriminate.
Defined.

Lemma firmware_trace_is_spec_run_witness :
  spec_run SUninitialized (fw_trace (run 3 (init_state 0%nat)))
    (abs_phase (fw_phase (run 3 (init_state 0%nat)))).
Proof.
  exact (@firmware_trace_is_spec_run counter_adc engine_ok engine_ok_input_shape
           engine_ok_output_shape 0%nat _ reachable_loop_entry).
Defined.

End WitnessRefinement.
