(* ===== verification/Counting.v ===== *)
(** * Counting the calls of the firmware's log

    Footstep reports, successful inferences, inference failures and the
    total time slept, as functions of a log.  The bounds on every
    reachable log ([sleep_accounting], [footsteps_bounded]) are proved on
    the runs of the abstract machine of [Pipeline.v] and carried to the
    firmware by the refinement theorem; the theorems about [k] iterations
    of the loop ([loop_iterations], [constant_model_footsteps],
    [persistent_failure]) go by induction over the iterations
    ([run_loop_ind]) with the trace of one iteration ([cycle_trace]). *)

From Stdlib Require Import ZArith String Lia SpecFloat.
From stdpp Require Import base list.
From S2P Require Import Prelude Config Float32 Adc Preprocess Engine Decision Stubs Firmware Invariant Pipeline.

(** ** Counting the calls of a log *)

Definition is_footstep (e : event) : bool :=
  match e with EvPrint m => String.eqb m msg_footstep | _ => false end.
Definition is_invoke_ok (e : event) : bool :=
  match e with EvInvoke kTfLiteOk => true | _ => false end.
Definition sleep_of (e : event) : Z := match e with EvSleep ms => ms | _ => 0%Z end.

Definition is_failure (e : event) : bool :=
  match e with EvPrint m => String.eqb m msg_inference_failed | _ => false end.

Definition footsteps (tr : list event) : nat := length (List.filter is_footstep tr).
Definition failures (tr : list event) : nat := length (List.filter is_failure tr).
Definition invokes_ok (tr : list event) : nat := length (List.filter is_invoke_ok tr).
Definition sleep_total (tr : list event) : Z := fold_right (fun e acc => sleep_of e + acc)%Z 0%Z tr.

Lemma footsteps_app tr1 tr2 : footsteps (tr1 ++ tr2) = (footsteps tr1 + footsteps tr2)%nat.
Proof. unfold footsteps. by rewrite List.filter_app, length_app. Qed.
Lemma failures_app tr1 tr2 : failures (tr1 ++ tr2) = (failures tr1 + failures tr2)%nat.
Proof. unfold failures. by rewrite List.filter_app, length_app. Qed.
Lemma invokes_ok_app tr1 tr2 : invokes_ok (tr1 ++ tr2) = (invokes_ok tr1 + invokes_ok tr2)%nat.
Proof. unfold invokes_ok. by rewrite List.filter_app, length_app. Qed.
Lemma sleep_total_app tr1 tr2 : sleep_total (tr1 ++ tr2) = (sleep_total tr1 + sleep_total tr2)%Z.
Proof. unfold sleep_total. rewrite fold_right_app. induction tr1; simpl; lia. Qed.

Lemma reads_counts vs :
  footsteps (map EvAdcRead vs) = 0%nat /\ invokes_ok (map EvAdcRead vs) = 0%nat /\
  sleep_total (map EvAdcRead vs) = 0%Z.
Proof. induction vs as [|v vs IH]; simpl; [done|]. exact IH. Qed.

(** The counts of one abstract cycle: one delay and one successful
    [Invoke] on success, neither on failure, and a footstep exactly when
    the inference succeeded and its output passed the threshold. *)
Lemma cycle_events_counts frame st prob :
  footsteps (cycle_events frame st prob) =
    (if status_ok st && footstep_threshold prob then 1 else 0)%nat /\
  invokes_ok (cycle_events frame st prob) = (if status_ok st then 1 else 0)%nat /\
  sleep_total (cycle_events frame st prob) = (if status_ok st then 10 else 0)%Z.
Proof.
  destruct (reads_counts frame) as (H1 & H2 & H3). unfold cycle_events.
  rewrite !footsteps_app, !invokes_ok_app, !sleep_total_app, H1, H2, H3.
  destruct st; simpl; try (repeat split; reflexivity).
  unfold decide_footstep. destruct (footstep_threshold prob); repeat split; reflexivity.
Qed.

(** One abstract cycle reports one failure exactly when [Invoke]
    failed. *)
Lemma cycle_events_failures frame st prob :
  failures (cycle_events frame st prob) = (if status_ok st then 0 else 1)%nat.
Proof.
  unfold cycle_events. rewrite !failures_app.
  replace (failures (map EvAdcRead frame)) with 0%nat by (induction frame; done).
  destruct st; try reflexivity.
  unfold decide_footstep. by destruct (footstep_threshold prob).
Qed.

#[export] Hint Rewrite footsteps_app failures_app invokes_ok_app sleep_total_app : fw_rw.

Section Counting.
Context `{MicroInterpreter}.

(** On abstract runs: the delay is 500 ms at start plus 10 ms per
    successful inference, and there is at most one footstep per
    successful inference. *)
Lemma spec_run_uninit tr : spec_run SUninitialized tr SUninitialized -> tr = [].
Proof. inversion 1 as [|? ? ? ? ? _ Hlast]; [done|]. inversion Hlast. Qed.

Lemma spec_run_counts tr p :
  spec_run SUninitialized tr p ->
  (p <> SUninitialized -> sleep_total tr = 500 + 10 * Z.of_nat (invokes_ok tr))%Z /\
  (footsteps tr <= invokes_ok tr)%nat.
Proof.
  intros Hrun. remember SUninitialized as p0 eqn:E.
  induction Hrun as [p|p1 tr p2 e p3 Hrun IH Hstep];
    [subst; split; [intros Hne; by destruct Hne | unfold footsteps, invokes_ok; simpl; lia]|].
  destruct (IH E) as [IH1 IH2]. subst p1.
  rewrite sleep_total_app, footsteps_app, invokes_ok_app.
  destruct Hstep as [| | | | |frame st prob _ _|].
  1: rewrite (spec_run_uninit tr Hrun); split; [intros _; reflexivity | vm_compute; lia].
  5: destruct (cycle_events_counts frame st prob) as (K1 & K2 & K3);
     rewrite K1, K2, K3; specialize (IH1 ltac:(discriminate));
     destruct (status_ok st), (footstep_threshold prob); simpl; split; try intros _; lia.
  all: revert IH1 IH2; generalize (sleep_total tr) (footsteps tr) (invokes_ok tr);
    intros A B C IH1 IH2; specialize (IH1 ltac:(discriminate)); cbn; split; [intros _|]; lia.
Qed.
End Counting.

Section FirmwareCounts.
Context `{AdcDevice} `{MicroInterpreter}.
Hypothesis input_shape : forall i, (160 <= length (input_data i))%nat.
Hypothesis output_shape : forall i, (1 <= length (output_data i))%nat.

(** C5: the firmware's only delays are the 500 ms at start and 10 ms
    after each successful inference: an iteration whose [Invoke] fails
    [continue]s straight into the next one without [sleep_ms(10)], so a
    model that keeps failing is retried back to back, with no fixed
    period. *)
Theorem sleep_accounting a s :
  reachable a s -> fw_phase s <> Uninitialized ->
  sleep_total (fw_trace s) = (500 + 10 * Z.of_nat (invokes_ok (fw_trace s)))%Z.
Proof.
  intros Hr Hp. apply (spec_run_counts _ (abs_phase (fw_phase s))).
  - by apply (reachable_spec_run input_shape output_shape a).
  - destruct (fw_phase s); simpl; congruence.
Qed.

(** C19: at most one footstep is reported per successful inference, and
    none before the loop or after a failed one. *)
Theorem footsteps_bounded a s :
  reachable a s -> (footsteps (fw_trace s) <= invokes_ok (fw_trace s))%nat.
Proof.
  intros Hr. eapply (spec_run_counts _ (abs_phase (fw_phase s))).
  by apply (reachable_spec_run input_shape output_shape a).
Qed.

(** C20: [k] iterations of the loop, whatever the model answers (a
    failed [Invoke] included), are [k] complete cycles: each reads a
    fresh 160-sample frame, invokes the model once and then decides and
    sleeps, or reports the failure. *)
Theorem loop_iterations a s :
  reachable a s -> fw_phase s = Running ->
  forall k, exists cycles : list (list Z * TfLiteStatus * F32.float),
    length cycles = k /\
    Forall (fun c => length c.1.1 = 160%nat /\ Forall (fun v => 0 <= v < 4096)%Z c.1.1) cycles /\
    fw_phase (run k s) = Running /\
    fw_trace (run k s) =
      fw_trace s ++ List.concat (map (fun c => cycle_events c.1.1 c.1.2 c.2) cycles).
Proof.
  intros Hr Hp k.
  pose (P j s' := exists cycles : list (list Z * TfLiteStatus * F32.float),
    length cycles = j /\
    Forall (fun c => length c.1.1 = 160%nat /\ Forall (fun v => 0 <= v < 4096)%Z c.1.1) cycles /\
    fw_trace s' = fw_trace s ++ List.concat (map (fun c => cycle_events c.1.1 c.1.2 c.2) cycles)).
  assert (HP0 : P 0%nat s) by (exists []; simpl; by rewrite app_nil_r).
  assert (HS : forall j s', reachable a s' -> fw_phase s' = Running -> P j s' -> P (S j) (cycle s')).
  { intros j s' Hr' Hp' (cs & Hl & Hall & Htr).
    destruct (cycle_observable s' (reachable_inv input_shape output_shape a s' Hr') Hp')
      as (frame & st & prob & Hf & Hrange & _ & Htr').
    exists (cs ++ [(frame, st, prob)]). rewrite length_app, Hl. split; [simpl; lia|].
    split; [apply Forall_app; split; [done | by constructor]|].
    rewrite Htr', Htr, map_app, concat_app. simpl. by rewrite app_nil_r, <- app_assoc. }
  destruct (run_loop_ind input_shape output_shape a s P Hr Hp HP0 HS k)
    as (Hpk & _ & cs & Hl & Hall & Htr).
  exists cs. auto.
Qed.
End FirmwareCounts.

Section ConstantModel.
Context `{AdcDevice} `{MicroInterpreter}.
Hypothesis input_shape : forall i, (160 <= length (input_data i))%nat.
Hypothesis output_shape : forall i, (1 <= length (output_data i))%nat.
Variable p : F32.float.
(** A model that always succeeds and always outputs [p]. *)
Hypothesis invoke_const : forall i inp out, out <> [] ->
  (invoke i inp out).1.1.1 = kTfLiteOk /\ (invoke i inp out).2 !! 0%nat = Some p.

(** C21: with a model that always succeeds with the output [p], each
    iteration of the loop reports exactly one footstep if [p > 0.5f]
    and none otherwise: [k] iterations add [k] reports, or none. *)
Theorem constant_model_footsteps a s :
  reachable a s -> fw_phase s = Running ->
  forall k, footsteps (fw_trace (run k s)) =
            (footsteps (fw_trace s) + if footstep_threshold p then k else 0)%nat.
Proof.
  intros Hr Hp k.
  pose (P j s' := footsteps (fw_trace s') =
                  (footsteps (fw_trace s) + if footstep_threshold p then j else 0)%nat).
  assert (HP0 : P 0%nat s) by (unfold P; destruct (footstep_threshold p); lia).
  assert (HS : forall j s', reachable a s' -> fw_phase s' = Running -> P j s' -> P (S j) (cycle s')).
  { intros j s' Hr' Hp' IH. unfold P in *.
    pose proof (reachable_inv input_shape output_shape a s' Hr') as Hinv.
    destruct (fw_inv_running s' Hinv Hp') as (i & Hi & _ & Hout).
    destruct (cycle_trace s' i Hinv Hp' Hi) as [_ ->].
    rewrite footsteps_app, IH, (proj1 (cycle_events_counts _ _ _)).
    destruct (invoke_const i (map normalize_sample (adc_samples 160 (fw_adc s')).1 ++
                              drop 160 (fw_input s')) (fw_output s')) as [-> ->];
      [intros E; rewrite E in Hout; simpl in Hout; lia|].
    cbn [status_ok andb default id]. destruct (footstep_threshold p); lia. }
  by destruct (run_loop_ind input_shape output_shape a s P Hr Hp HP0 HS k) as (_ & _ & HPk).
Qed.
End ConstantModel.

Section FailingModel.
Context `{AdcDevice} `{MicroInterpreter}.
Hypothesis input_shape : forall i, (160 <= length (input_data i))%nat.
Hypothesis output_shape : forall i, (1 <= length (output_data i))%nat.
(** A model whose every [Invoke] fails. *)
Hypothesis invoke_fails : forall i inp out, (invoke i inp out).1.1.1 <> kTfLiteOk.

(** C18: a model that keeps failing is retried for ever with no escalation
    and no delay: each of [k] iterations prints one "Inference failed!",
    none reports a footstep or sleeps, and the loop never leaves
    [while (1)] (the unbounded retry the spec's section 7 flags). *)
Theorem persistent_failure a s :
  reachable a s -> fw_phase s = Running ->
  forall k, fw_phase (run k s) = Running /\
    failures (fw_trace (run k s)) = (failures (fw_trace s) + k)%nat /\
    footsteps (fw_trace (run k s)) = footsteps (fw_trace s) /\
    sleep_total (fw_trace (run k s)) = sleep_total (fw_trace s).
Proof.
  intros Hr Hp k.
  pose (P j s' := failures (fw_trace s') = (failures (fw_trace s) + j)%nat /\
                  footsteps (fw_trace s') = footsteps (fw_trace s) /\
                  sleep_total (fw_trace s') = sleep_total (fw_trace s)).
  assert (HP0 : P 0%nat s) by (unfold P; split; [lia | done]).
  assert (HS : forall j s', reachable a s' -> fw_phase s' = Running -> P j s' -> P (S j) (cycle s')).
  { intros j s' Hr' Hp' (IH1 & IH2 & IH3). unfold P.
    pose proof (reachable_inv input_shape output_shape a s' Hr') as Hinv.
    destruct (fw_inv_running s' Hinv Hp') as (i & Hi & _).
    destruct (cycle_trace s' i Hinv Hp' Hi) as [_ ->].
    rewrite failures_app, footsteps_app, sleep_total_app, IH1, IH2, IH3, cycle_events_failures.
    destruct (cycle_events_counts (adc_samples 160 (fw_adc s')).1
      (invoke i (map normalize_sample (adc_samples 160 (fw_adc s')).1 ++ drop 160 (fw_input s'))
              (fw_output s')).1.1.1 (default (S754_nan : F32.float)
      ((invoke i (map normalize_sample (adc_samples 160 (fw_adc s')).1 ++ drop 160 (fw_input s'))
              (fw_output s')).2 !! 0%nat))) as (K1 & _ & K3).
    rewrite K1, K3.
    destruct (status_ok _) eqn:E; [apply status_ok_true, invoke_fails in E as []|].
    cbn [andb]. split; [lia|]. split; lia. }
  destruct (run_loop_ind input_shape output_shape a s P Hr Hp HP0 HS k) as (Hpk & _ & HPk).
  split; [exact Hpk | exact HPk].
Qed.
End FailingModel.

(** ** Witnesses, on the test doubles of [Stubs] *)

Section Scenario.
#[local] Existing Instance counter_adc.

#[local] Existing Instance engine_ok.

Lemma engine_ok_const : forall i inp out, out <> [] ->
  (invoke i inp out).1.1.1 = kTfLiteOk /\ (invoke i inp out).2 !! 0%nat = Some f32_0_9.
Proof. intros i inp [|o out] Hne; [done|]. split; reflexivity. Qed.

Lemma constant_model_footsteps_witness :
  footsteps (fw_trace (run 4 (run 3 (init_state 0%nat)))) =
    (footsteps (fw_trace (run 3 (init_state 0%nat))) +
     if footstep_threshold f32_0_9 then 4 else 0)%nat.
Proof.
  exact (@constant_model_footsteps counter_adc engine_ok engine_ok_input_shape
           engine_ok_output_shape f32_0_9 engine_ok_const 0%nat _ reachable_loop_entry
           eq_refl 4).
Defined.

Lemma sleep_accounting_witness :
  fw_phase (run 3 (init_state 0%nat)) <> Uninitialized /\
  sleep_total (fw_trace (run 3 (init_state 0%nat))) =
    (500 + 10 * Z.of_nat (invokes_ok (fw_trace (run 3 (init_state 0%nat)))))%Z.
Proof.
  assert (Hp : fw_phase (run 3 (init_state 0%nat)) <> Uninitialized) by (vm_compute; discriminate).
  split; [exact Hp|].
  exact (@sleep_accounting counter_adc engine_ok engine_ok_input_shape engine_ok_output_shape
           0%nat _ reachable_loop_entry Hp).
Defined.

Lemma footsteps_bounded_witness :
  (footsteps (fw_trace (run 3 (init_state 0%nat))) <=
   invokes_ok (fw_trace (run 3 (init_state 0%nat))))%nat.
Proof.
  exact (@footsteps_bounded counter_adc engine_ok engine_ok_input_shape engine_ok_output_shape
           0%nat _ reachable_loop_entry).
Defined.

Lemma loop_iterations_witness :
  exists cycles : list (list Z * TfLiteStatus * F32.float),
    length cycles = 2%nat /\
    Forall (fun c => length c.1.1 = 160%nat /\ Forall (fun v => 0 <= v < 4096)%Z c.1.1) cycles /\
    fw_phase (run 2 (run 3 (init_state 0%nat))) = Running /\
    fw_trace (run 2 (run 3 (init_state 0%nat))) =
      fw_trace (run 3 (init_state 0%nat)) ++
      List.concat (map (fun c => cycle_events c.1.1 c.1.2 c.2) cycles).
Proof.
  exact (@loop_iterations counter_adc engine_ok engine_ok_input_shape engine_ok_output_shape
           0%nat _ reachable_loop_entry eq_refl 2).
Defined.
End Scenario.

Section WitnessFailing.
#[local] Existing Instance counter_adc.
#[local] Existing Instance engine_failing.

Lemma engine_failing_fails : forall i inp out, (invoke i inp out).1.1.1 <> kTfLiteOk.
Proof. intros i inp out. discriminate. Qed.

Lemma reachable_failing_entry : reachable 0%nat (run 3 (init_state 0%nat)).
Proof.
  apply (@reachable_run counter_adc engine_failing). intros k Hk.
  destruct k as [|[|[|k]]]; [vm_compute; discriminate.. | lia].
Qed.

Lemma persistent_failure_witness :
  fw_phase (run 3 (init_state 0%nat)) = Running /\
  (fw_phase (run 4 (run 3 (init_state 0%nat))) = Running /\
   failures (fw_trace (run 4 (run 3 (init_state 0%nat)))) =
     (failures (fw_trace (run 3 (init_state 0%nat))) + 4)%nat /\
   footsteps (fw_trace (run 4 (run 3 (init_state 0%nat)))) =
     footsteps (fw_trace (run 3 (init_state 0%nat))) /\
   sleep_total (fw_trace (run 4 (run 3 (init_state 0%nat)))) =
     sleep_total (fw_trace (run 3 (init_state 0%nat)))).
Proof.
  assert (Hp : fw_phase (run 3 (init_state 0%nat)) = Running) by reflexivity.
  split; [exact Hp|].
  exact (@persistent_failure counter_adc engine_failing (stub_input_shape _ _ _ _)
           (stub_output_shape _ _ _ _) engine_failing_fails 0%nat _ reachable_failing_entry Hp 4).
Defined.
End WitnessFailing.
